(** * web3-wallet-tools: the wallet registry, the chain providers and the
      four command handlers, embedded from the TypeScript sources.

    Layout: the run-time basics shared by all modules (results, the
    state-and-exception monad of [async] code, numbers), then
    [src/wallets/models.ts], [src/wallets/store/json-store.ts], the chain
    providers and their factory, the handlers of [src/wallets/cli], a
    scripted network to run them on, the vocabulary of the properties, and
    finally the properties. Log lines are left out, except for the figures
    of the closing summaries, which the handlers return here. *)

From Stdlib Require Import ZArith Floats List Lia.
From stdpp Require Import base option list strings gmap pretty.

Local Open Scope string_scope.
Local Open Scope list_scope.
Local Open Scope Z_scope.

(** ** Run-time basics *)

(** What an [await]ed call can end in: a value, or a thrown error. *)
Inductive JsError : Type :=
| SyntaxError                  (* JSON.parse on malformed text *)
| TypeError (msg : string)
| RangeError (msg : string)
| SystemError (code : string)  (* fs errors, e.g. ENOENT *)
| Error (msg : string).        (* new Error(msg), or an error of a library *)

Inductive Result (A : Type) : Type :=
| Ok (a : A)
| Throw (e : JsError).
Arguments Ok {A} a.
Arguments Throw {A} e.

(** Sequential [async] code over a mutable state [St]: every step returns the
    state it leaves behind, whether it returns or throws. *)
Definition M (St A : Type) : Type := St -> St * Result A.

Definition ret {St A} (a : A) : M St A := fun s => (s, Ok a).
Definition throw {St A} (e : JsError) : M St A := fun s => (s, Throw e).
Definition bind {St A B} (m : M St A) (k : A -> M St B) : M St B :=
  fun s => match m s with
           | (s', Ok a) => k a s'
           | (s', Throw e) => (s', Throw e)
           end.
(** [try { m } catch (error) { h error }] *)
Definition try_catch {St A} (m : M St A) (h : JsError -> M St A) : M St A :=
  fun s => match m s with
           | (s', Ok a) => (s', Ok a)
           | (s', Throw e) => h e s'
           end.
Definition get {St} : M St St := fun s => (s, Ok s).
Definition put {St} (s : St) : M St unit := fun _ => (s, Ok tt).
Definition lift_result {St A} (r : Result A) : M St A := fun s => (s, r).

Notation "'do' x <- m ; k" := (bind m (fun x => k))
  (at level 10, x name, m at level 100, k at level 200).
Notation "'do' ' p <- m ; k" := (bind m (fun x => let 'p := x in k))
  (at level 10, p pattern, m at level 100, k at level 200).
Notation "'run' m ; k" := (bind m (fun _ => k))
  (at level 10, m at level 100, k at level 200).

(** [!s] on a string. *)
Definition falsy_string (s : string) : bool := bool_decide (s = "").

(** [haystack.includes(needle)] *)
Fixpoint includes (haystack needle : string) : bool :=
  String.prefix needle haystack ||
  match haystack with
  | EmptyString => false
  | String _ rest => includes rest needle
  end.

(** [BigInt(Math.floor(x))] for a double [x]: the integer below a finite
    value, a RangeError for NaN and the infinities. *)
Definition BigInt_floor (x : float) : Result Z :=
  match Prim2SF x with
  | S754_zero _ => Ok 0
  | S754_finite sign m e =>
      let v := if sign then Z.neg m else Z.pos m in
      Ok (if 0 <=? e then v * 2 ^ e else v / 2 ^ (- e))
  | S754_infinity _ | S754_nan =>
      Throw (RangeError "The number cannot be converted to a BigInt because it is not an integer")
  end.

(** ** src/wallets/models.ts *)

(** [publicKey] is what [wallet.publicKey] reads: [None] is an object without
    the property ([undefined]), which the store tests for with [!publicKey]. *)
Record Wallet : Type := {
  privateKey : string;
  publicKey : option string;
  alias : string
}.

Record TransactionResult : Type := {
  hash : option string;
  successful : bool;
  reason : option string
}.

Global Instance Wallet_eq_dec : EqDecision Wallet.
Proof. solve_decision. Defined.

(** The argument of [WalletStore.add]: [Wallet | Wallet[]], or nothing at all. *)
Inductive WalletInput : Type :=
| Undefined
| Single (wallet : Wallet)
| Batch (wallets : list Wallet).

Global Instance WalletInput_eq_dec : EqDecision WalletInput.
Proof. solve_decision. Defined.

(** [interface WalletStore], over the state [S] of an implementation. *)
Record WalletStore (S : Type) : Type := {
  store_getWallets : string -> M S (list Wallet);
  store_add : string -> WalletInput -> M S unit;
  store_count : string -> M S nat
}.
Arguments store_getWallets {S} _.
Arguments store_add {S} _.
Arguments store_count {S} _.

(** ** src/wallets/store/json-store.ts *)

Module JsonStore.

(** A JSON value as the store looks at it under a chain key: an array is
    read as the chain's [Wallet[]] (the cast of [readData]); of any other
    value only its truthiness is ever inspected. *)
Inductive JsonValue : Type :=
| JNull
| JBool (b : bool)
| JNumber (n : Z)               (* only whether it is 0 is looked at *)
| JString (s : string)
| JObject                      (* an object that is not an array *)
| JArray (wallets : list Wallet).

(** [WalletsData]: chain name to value. *)
Abbreviation WalletsData := (gmap string JsonValue).

(** The text of [wallets.json] through the eyes of [JSON.parse]. The store
    itself only ever writes an object, so other top-level values are not
    distinguished here. *)
Inductive FileState : Type :=
| Missing                      (* no such file *)
| Corrupt                      (* text on which JSON.parse raises SyntaxError *)
| Parsed (data : WalletsData). (* the text of a JSON object *)

Record t : Type := {
  initialized : bool;
  file : FileState
}.

(** [!data[chain]] *)
Definition falsy (v : option JsonValue) : bool :=
  match v with
  | None | Some JNull | Some (JBool false) => true
  | Some (JNumber n) => bool_decide (n = 0)
  | Some (JString s) => falsy_string s
  | Some (JBool true) | Some JObject | Some (JArray _) => false
  end.

Definition writeFile (data : WalletsData) : M t unit :=
  fun s => ({| initialized := initialized s; file := Parsed data |}, Ok tt).

Definition initialize : M t unit :=
  do s <- get;
  if initialized s then ret tt
  else
    run (match file s with
         | Missing => writeFile ∅        (* fs.access threw: create the file *)
         | Corrupt | Parsed _ => ret tt
         end);
    fun s' => ({| initialized := true; file := file s' |}, Ok tt).

(** [fs.readFile] followed by [JSON.parse]. *)
Definition readFile_parse : M t WalletsData :=
  do s <- get;
  match file s with
  | Parsed data => ret data
  | Corrupt => throw SyntaxError
  | Missing => throw (SystemError "ENOENT")
  end.

Definition readData : M t WalletsData :=
  run initialize;
  try_catch readFile_parse
    (fun error =>
       match error with
       | SyntaxError => run writeFile ∅; ret ∅
       | _ => throw error
       end).

Definition writeData (data : WalletsData) : M t unit :=
  run initialize;
  writeFile data.

(** [Array.isArray(data[chain]) ? data[chain] : []] *)
Definition wallets_of (data : WalletsData) (chain : string) : list Wallet :=
  match data !! chain with
  | Some (JArray wallets) => wallets
  | _ => []
  end.

Definition getWallets (chain : string) : M t (list Wallet) :=
  if falsy_string chain then ret []
  else
    do data <- readData;
    ret (wallets_of data chain).

(** The three counters of the summary line logged at the end of [add]. *)
Record Summary : Type := {
  newCount : nat;
  updatedCount : nat;
  skippedCount : nat
}.

Definition count_new (c : Summary) : Summary :=
  {| newCount := S (newCount c); updatedCount := updatedCount c;
     skippedCount := skippedCount c |}.
Definition count_updated (c : Summary) : Summary :=
  {| newCount := newCount c; updatedCount := S (updatedCount c);
     skippedCount := skippedCount c |}.
Definition count_skipped (c : Summary) : Summary :=
  {| newCount := newCount c; updatedCount := updatedCount c;
     skippedCount := S (skippedCount c) |}.

(** [!publicKey] *)
Definition no_publicKey (wallet : Wallet) : bool :=
  match publicKey wallet with
  | None => true
  | Some pk => falsy_string pk
  end.

(** [list.findIndex((w) => w && w.publicKey === publicKey)], [None] for -1.
    The entries are wallet objects, on which [w &&] lets everything pass. *)
Definition findIndex (pk : string) (l : list Wallet) : option nat :=
  fst <$> list_find (fun w => publicKey w = Some pk) l.

(** The [for (const wallet of wallets)] loop of [add]; [entry] is
    [data[chain]], which is truthy here. *)
Fixpoint add_loop (wallets : list Wallet) (entry : JsonValue) (c : Summary)
  : Result (JsonValue * Summary) :=
  match wallets with
  | [] => Ok (entry, c)
  | wallet :: rest =>
      match publicKey wallet with
      | None => add_loop rest entry (count_skipped c)
      | Some pk =>
          if falsy_string pk then add_loop rest entry (count_skipped c)
          else
            match entry with
            | JArray l =>
                match findIndex pk l with
                | Some existingIndex =>
                    add_loop rest (JArray (<[existingIndex := wallet]> l)) (count_updated c)
                | None =>
                    add_loop rest (JArray (l ++ [wallet])) (count_new c)
                end
            | _ => Throw (TypeError "data[chain].findIndex is not a function")
            end
      end
  end.

(** [data[chain]] after [if (!data[chain]) data[chain] = []]. *)
Definition entry_of (data : WalletsData) (chain : string) : JsonValue :=
  if falsy (data !! chain) then JArray [] else default (JArray []) (data !! chain).

(** [Array.isArray(walletInput) ? walletInput : [walletInput]] *)
Definition wallets_in (walletInput : WalletInput) : list Wallet :=
  match walletInput with
  | Batch ws => ws
  | Single w => [w]
  | Undefined => []
  end.

Definition no_counts : Summary :=
  {| newCount := 0; updatedCount := 0; skippedCount := 0 |}.

(** [add] returns nothing; the value here is the logged summary, [None] when
    a guard returns before anything is read. *)
Definition add (chain : string) (walletInput : WalletInput) : M t (option Summary) :=
  if falsy_string chain then ret None
  else
    match walletInput with
    | Undefined => ret None
    | _ =>
        do data <- readData;
        do '(entry', c) <- lift_result (add_loop (wallets_in walletInput)
                                          (entry_of data chain) no_counts);
        run writeData (<[chain := entry']> data);
        ret (Some c)
    end.

Definition count (chain : string) : M t nat :=
  if falsy_string chain then ret 0%nat
  else
    do wallets <- getWallets chain;
    ret (length wallets).

(** [class JsonStore implements WalletStore] *)
Definition as_store : WalletStore t :=
  Build_WalletStore t getWallets
    (fun chain walletInput => run add chain walletInput; ret tt) count.

End JsonStore.

(** ** The world outside: networks, key libraries, and what was sent *)

(** A transferred amount as the provider hands it over. *)
Inductive Amount : Type :=
| Wei (value : Z)                 (* bigint *)
| Lamports (value : Z)            (* number, a whole count of lamports *)
| LamportsProduct (value : float). (* number, [amount * LAMPORTS_PER_SOL] *)

(** A transfer handed to the network. *)
Inductive Sent : Type :=
| Submitted (sender : string) (recipient : option string) (amount : Amount).

(** The network as a provider sees it, with the journal of what it was
    asked to transfer. *)
Record Env (W : Type) : Type := {
  world : W;
  journal : list Sent
}.
Arguments world {W} _.
Arguments journal {W} _.

(** A call into the outside world. *)
Definition rpc {W A} (m : M W A) : M (Env W) A :=
  fun s => let '(w', r) := m (world s) in
           ({| world := w'; journal := journal s |}, r).

Definition emit {W} (e : Sent) : M (Env W) unit :=
  fun s => ({| world := world s; journal := journal s ++ [e] |}, Ok tt).

(** [ethers.FeeData]: each field is [null] or a bigint. *)
Record FeeData : Type := {
  gasPrice : option Z;
  maxFeePerGas : option Z;
  maxPriorityFeePerGas : option Z
}.

(** [a || b] and [!a] on [null | bigint] ([0n] is falsy). *)
Definition bigint_or (a b : option Z) : option Z :=
  match a with
  | Some n => if bool_decide (n = 0) then b else a
  | None => b
  end.
Definition bigint_falsy (a : option Z) : bool :=
  match a with
  | Some n => bool_decide (n = 0)
  | None => true
  end.

Record EvmTransactionRequest : Type := {
  tx_to : option string;
  tx_value : Z;
  tx_gasLimit : option Z;
  tx_maxFeePerGas : option Z;
  tx_maxPriorityFeePerGas : option Z
}.

(** What [ethers] and the node behind a [JsonRpcProvider] answer. *)
Record EvmRpc (W : Type) : Type := {
  evm_wallet : string -> Result string;        (* new ethersWallet(key).address *)
  evm_createRandom : M W (string * string);    (* privateKey, address *)
  evm_getBalance : option string -> M W Z;
  evm_getFeeData : M W FeeData;
  evm_sendTransaction : string -> EvmTransactionRequest -> M W string; (* tx.hash *)
  evm_wait : string -> M W (option Z)          (* receipt?.status *)
}.
Arguments evm_wallet {W} _.
Arguments evm_createRandom {W} _.
Arguments evm_getBalance {W} _.
Arguments evm_getFeeData {W} _.
Arguments evm_sendTransaction {W} _.
Arguments evm_wait {W} _.

(** What [@solana/web3.js] and the cluster behind a [Connection] answer. *)
Record SolanaRpc (W : Type) : Type := {
  sol_fromSecretKey : string -> Result string; (* Keypair.fromSecretKey(..).publicKey.toBase58() *)
  sol_generate : M W (string * string);        (* secret key text, address *)
  sol_PublicKey : option string -> Result string; (* new PublicKey(address) *)
  sol_getBalance : string -> M W Z;            (* a whole number of lamports *)
  sol_sendAndConfirmTransaction : string -> string -> Amount -> M W string (* signature *)
}.
Arguments sol_fromSecretKey {W} _.
Arguments sol_generate {W} _.
Arguments sol_PublicKey {W} _.
Arguments sol_getBalance {W} _.
Arguments sol_sendAndConfirmTransaction {W} _.

(** [interface ChainProvider] of models.ts. *)
Record ChainProvider (W : Type) : Type := {
  createWallet : string -> M (Env W) Wallet;
  fundWallet : float -> Wallet -> option string -> M (Env W) TransactionResult;
  drainWallet : option string -> Wallet -> M (Env W) TransactionResult;
  getBalance : option string -> M (Env W) Z;
  getFunderWallet : Wallet
}.
Arguments createWallet {W} _.
Arguments fundWallet {W} _.
Arguments drainWallet {W} _.
Arguments getBalance {W} _.
Arguments getFunderWallet {W} _.

(** [try { m } catch (error) { logger.error(..); throw error; }] *)
Definition rethrowing {St A} (m : M St A) : M St A :=
  try_catch m (fun error => throw error).

Definition soft_failure (why : string) : TransactionResult :=
  {| hash := None; successful := false; reason := Some why |}.

(** ** The EVM provider (class [EVMChainProvider], in the second part of
       src/wallets/models.ts) *)

Module EVMChainProvider.
Section Provider.
Context {W : Type}.

Record t : Type := {
  funder : Wallet;
  estimatedTransferGasLimit : Z;
  provider : EvmRpc W
}.

Definition constructor (rpc_ : EvmRpc W) (gasLimit : Z) (funderKey : string) : Result t :=
  match evm_wallet rpc_ funderKey with
  | Ok address =>
      Ok {| funder := {| privateKey := funderKey; publicKey := Some address;
                         alias := "evm-funder" |};
            estimatedTransferGasLimit := gasLimit;
            provider := rpc_ |}
  | Throw error => Throw error
  end.

Definition createWallet (this : t) (walletAlias : string) : M (Env W) Wallet :=
  rethrowing
    (do '(key, address) <- rpc (evm_createRandom (provider this));
     ret {| privateKey := key; publicKey := Some address; alias := walletAlias |}).

Definition fundWallet (this : t) (amount : float) (funder_ : Wallet)
    (recipientAddress : option string) : M (Env W) TransactionResult :=
  rethrowing
    (do fundFrom <- lift_result (evm_wallet (provider this) (privateKey funder_));
     do weiAmount <- lift_result (BigInt_floor (amount * 1e18)%float);
     run emit (Submitted fundFrom recipientAddress (Wei weiAmount));
     do txhash <- rpc (evm_sendTransaction (provider this) (privateKey funder_)
                         {| tx_to := recipientAddress; tx_value := weiAmount;
                            tx_gasLimit := None; tx_maxFeePerGas := None;
                            tx_maxPriorityFeePerGas := None |});
     do status <- rpc (evm_wait (provider this) txhash);
     ret {| hash := Some txhash; successful := bool_decide (status = Some 1);
            reason := None |}).

Definition drainWallet (this : t) (recipientAddress : option string) (wallet : Wallet)
  : M (Env W) TransactionResult :=
  rethrowing
    (do senderWallet <- lift_result (evm_wallet (provider this) (privateKey wallet));
     do balance <- rpc (evm_getBalance (provider this) (Some senderWallet));
     if balance <=? 0 then ret (soft_failure "wallet balance is 0")
     else
       do gasPrice_ <- rpc (evm_getFeeData (provider this));
       let gasLimit := estimatedTransferGasLimit this in
       let maxFeePerGas_ := bigint_or (maxFeePerGas gasPrice_) (gasPrice gasPrice_) in
       let maxPriorityFeePerGas_ := bigint_or (maxPriorityFeePerGas gasPrice_) (Some 0) in
       if bigint_falsy maxFeePerGas_ then throw (Error "Could not determine gas price")
       else
         (* a bigint from here on *)
         let gasCost := gasLimit * default 0 maxFeePerGas_ in
         let amountToSend := balance - gasCost in
         if amountToSend <=? 0
         then ret (soft_failure "wallet has insufficient balance to cover the transfer fee")
         else
           run emit (Submitted senderWallet recipientAddress (Wei amountToSend));
           do txhash <- rpc (evm_sendTransaction (provider this) (privateKey wallet)
                               {| tx_to := recipientAddress; tx_value := amountToSend;
                                  tx_gasLimit := Some gasLimit;
                                  tx_maxFeePerGas := maxFeePerGas_;
                                  tx_maxPriorityFeePerGas := maxPriorityFeePerGas_ |});
           do status <- rpc (evm_wait (provider this) txhash);
           ret {| hash := Some txhash; successful := bool_decide (status = Some 1);
                  reason := None |}).

Definition getBalance (this : t) (address : option string) : M (Env W) Z :=
  rethrowing (rpc (evm_getBalance (provider this) address)).

Definition getFunderWallet (this : t) : Wallet := funder this.

End Provider.
Arguments t : clear implicits.

(** [class EVMChainProvider implements ChainProvider] *)
Definition as_provider {W} (this : t W) : ChainProvider W :=
  Build_ChainProvider W (createWallet this) (fundWallet this) (drainWallet this)
    (getBalance this) (getFunderWallet this).

End EVMChainProvider.

(** ** src/wallets/chain-providers/solana.ts *)

(** The constant of [@solana/web3.js] ("LAMPORTS_PER_SOL is 10^9", as the
    fund handler notes). *)
Definition LAMPORTS_PER_SOL : float := 1e9.

Module SolanaChainProvider.
Section Provider.
Context {W : Type}.

Record t : Type := {
  funder : Wallet;
  estimatedMinimumFee : Z;
  connection : SolanaRpc W
}.

Definition constructor (connection_ : SolanaRpc W) (minimumFee : Z) (funderKey : string)
  : Result t :=
  match sol_fromSecretKey connection_ funderKey with
  | Ok address =>
      Ok {| funder := {| privateKey := funderKey; publicKey := Some address;
                         alias := "solana-funder" |};
            estimatedMinimumFee := minimumFee;
            connection := connection_ |}
  | Throw error => Throw error
  end.

Definition createWallet (this : t) (walletAlias : string) : M (Env W) Wallet :=
  rethrowing
    (do '(key, address) <- rpc (sol_generate (connection this));
     ret {| privateKey := key; publicKey := Some address; alias := walletAlias |}).

Definition fundWallet (this : t) (amount : float) (funder_ : Wallet)
    (recipientAddress : option string) : M (Env W) TransactionResult :=
  rethrowing
    (do funderWallet <- lift_result (sol_fromSecretKey (connection this) (privateKey funder_));
     let lamports := (amount * LAMPORTS_PER_SOL)%float in
     do toPubkey <- lift_result (sol_PublicKey (connection this) recipientAddress);
     run emit (Submitted funderWallet (Some toPubkey) (LamportsProduct lamports));
     do signature <- rpc (sol_sendAndConfirmTransaction (connection this)
                            (privateKey funder_) toPubkey (LamportsProduct lamports));
     ret {| hash := Some signature; successful := true; reason := None |}).

Definition drainWallet (this : t) (recipientAddress : option string) (wallet : Wallet)
  : M (Env W) TransactionResult :=
  rethrowing
    (do senderWallet <- lift_result (sol_fromSecretKey (connection this) (privateKey wallet));
     do balance <- rpc (sol_getBalance (connection this) senderWallet);
     if balance <=? 0 then ret (soft_failure "wallet balance is 0")
     else
       let minimumFee := estimatedMinimumFee this in
       if balance <=? minimumFee
       then ret (soft_failure "wallet has insufficient balance to cover the transfer fee")
       else
         let amountToSend := balance - minimumFee in
         do toPubkey <- lift_result (sol_PublicKey (connection this) recipientAddress);
         run emit (Submitted senderWallet (Some toPubkey) (Lamports amountToSend));
         do signature <- rpc (sol_sendAndConfirmTransaction (connection this)
                                (privateKey wallet) toPubkey (Lamports amountToSend));
         let successful_ := negb (falsy_string signature) in
         ret {| hash := Some signature; successful := successful_; reason := None |}).

Definition getBalance (this : t) (address : option string) : M (Env W) Z :=
  rethrowing
    (do publicKey_ <- lift_result (sol_PublicKey (connection this) address);
     rpc (sol_getBalance (connection this) publicKey_)).

Definition getFunderWallet (this : t) : Wallet := funder this.

End Provider.
Arguments t : clear implicits.

(** [class SolanaChainProvider implements ChainProvider] *)
Definition as_provider {W} (this : t W) : ChainProvider W :=
  Build_ChainProvider W (createWallet this) (fundWallet this) (drainWallet this)
    (getBalance this) (getFunderWallet this).

End SolanaChainProvider.

(** ** src/config and src/wallets/chain-providers/factory.ts *)

Record NetworkConfig : Type := {
  name : string;
  rpc_url : string;               (* [rpc] *)
  explorer : string;
  estimatedTransferFee : Z;
  type : string                   (* 'evm' | 'solana' in a well-formed file *)
}.

(** [class Config]: what the environment file and the process environment
    hold when they are read. *)
Record Config : Type := {
  getNetworkConfigs : Result (list NetworkConfig);
  EVM_FUNDER_PRIVATE_KEY : option string;
  SOLANA_FUNDER_PRIVATE_KEY : option string
}.

Definition getNetworkConfig (config : Config) (chain : string) : Result NetworkConfig :=
  match getNetworkConfigs config with
  | Ok networkConfigs =>
      match List.find (fun p => bool_decide (name p = chain)) networkConfigs with
      | Some res => Ok res
      | None => Throw (Error ("no entry found in config for chain: " +:+ chain))
      end
  | Throw error => Throw error
  end.

Definition evmFunderPrivateKey (config : Config) : Result string :=
  match EVM_FUNDER_PRIVATE_KEY config with
  | Some pk => if falsy_string pk
               then Throw (Error "unable to load EVM funder: EVM_FUNDER_PRIVATE_KEY env var not set")
               else Ok pk
  | None => Throw (Error "unable to load EVM funder: EVM_FUNDER_PRIVATE_KEY env var not set")
  end.

Definition solanaFunderPrivateKey (config : Config) : Result string :=
  match SOLANA_FUNDER_PRIVATE_KEY config with
  | Some pk => if falsy_string pk
               then Throw (Error "unable to load Solana funder: SOLANA_FUNDER_PRIVATE_KEY env var not set")
               else Ok pk
  | None => Throw (Error "unable to load Solana funder: SOLANA_FUNDER_PRIVATE_KEY env var not set")
  end.

(** [interface ChainProviderFactory] of models.ts. *)
Definition ChainProviderFactory (W : Type) : Type := string -> Result (ChainProvider W).

Module Factory.
Section Factory.
Context {W : Type}.
(** The network reached through an RPC url, one per chain family. *)
Variable evm_at : string -> EvmRpc W.
Variable solana_at : string -> SolanaRpc W.

Definition forChain (config : Config) : ChainProviderFactory W := fun chain =>
  match getNetworkConfig config chain with
  | Throw error => Throw error
  | Ok config_ =>
      if bool_decide (type config_ = "evm") then
        match evmFunderPrivateKey config with
        | Ok funderKey =>
            match EVMChainProvider.constructor (evm_at (rpc_url config_)) 21000 funderKey with
            | Ok p => Ok (EVMChainProvider.as_provider p)
            | Throw error => Throw error
            end
        | Throw error => Throw error
        end
      else if bool_decide (type config_ = "solana") then
        match solanaFunderPrivateKey config with
        | Ok funderKey =>
            match SolanaChainProvider.constructor (solana_at (rpc_url config_)) 5000 funderKey with
            | Ok p => Ok (SolanaChainProvider.as_provider p)
            | Throw error => Throw error
            end
        | Throw error => Throw error
        end
      else Throw (Error ("unsupported chain type '" +:+ type config_ +:+ "' for chain '"
                           +:+ chain +:+ "'"))
  end.

End Factory.
End Factory.

(** ** src/wallets/cli/create.ts: the four handlers *)

(** The calls a handler makes on its two collaborators, as it makes them. *)
Inductive Call : Type :=
| Called_createWallet (walletAlias : string)
| Called_getBalance (address : option string) (outcome : Result Z)
| Called_fundWallet (amount : float) (funder : Wallet) (recipient : option string)
| Called_add (chain : string) (wallets : list Wallet).

(** A handler owns a store and, through its provider, a network. *)
Record Sys (S W : Type) : Type := {
  store : S;
  env : Env W;
  calls : list Call
}.
Arguments store {S W} _.
Arguments env {S W} _.
Arguments calls {S W} _.

Definition on_store {S W A} (m : M S A) : M (Sys S W) A :=
  fun s => let '(st', r) := m (store s) in
           ({| store := st'; env := env s; calls := calls s |}, r).
Definition on_env {S W A} (m : M (Env W) A) : M (Sys S W) A :=
  fun s => let '(e', r) := m (env s) in
           ({| store := store s; env := e'; calls := calls s |}, r).
Definition note {S W} (c : Call) : M (Sys S W) unit :=
  fun s => ({| store := store s; env := env s; calls := calls s ++ [c] |}, Ok tt).

(** [await provider.getBalance(address)], noted with its outcome. *)
Definition call_getBalance {S W} (provider : ChainProvider W) (address : option string)
  : M (Sys S W) Z :=
  fun s => let '(s', r) := on_env (getBalance provider address) s in
           ({| store := store s'; env := env s';
               calls := calls s' ++ [Called_getBalance address r] |}, r).

Module CreateWalletsHandler.
Section Handler.
Context {S W : Type}.
Variable chainProviderFactory : ChainProviderFactory W.
Variable walletStore : WalletStore S.

Record Request : Type := {
  chain : string;
  count : Z                       (* a whole number, [parseInt]'s in main.ts *)
}.

(** [for (let i = 0; i < request.count; i++)], with [n] rounds to go. *)
Fixpoint create_loop (provider : ChainProvider W) (walletCount i n : nat)
    (wallets : list Wallet) : M (Sys S W) (list Wallet) :=
  match n with
  | O => ret wallets
  | Datatypes.S n' =>
      let walletAlias := "wallet-" +:+ pretty (walletCount + i)%nat in
      run note (Called_createWallet walletAlias);
      do wallet <- on_env (createWallet provider walletAlias);
      create_loop provider walletCount (Datatypes.S i) n' (wallets ++ [wallet])
  end.

Definition handle (request : Request) : M (Sys S W) unit :=
  do walletCount <- on_store (store_count walletStore (chain request));
  do provider <- lift_result (chainProviderFactory (chain request));
  do wallets <- create_loop provider walletCount 0 (Z.to_nat (count request)) [];
  run note (Called_add (chain request) wallets);
  on_store (store_add walletStore (chain request) (Batch wallets)).

End Handler.
End CreateWalletsHandler.

Module GetBalancesHandler.
Section Handler.
Context {S W : Type}.
Variable chainProviderFactory : ChainProviderFactory W.
Variable walletStore : WalletStore S.

Record Request : Type := {
  chain : string
}.

(** The two figures of the closing log lines. *)
Record Report : Type := {
  totalBalance : Z;
  zeroBalanceCount : nat
}.

Fixpoint balances_loop (provider : ChainProvider W) (wallets : list Wallet)
    (acc : Report) : M (Sys S W) Report :=
  match wallets with
  | [] => ret acc
  | wallet :: rest =>
      do acc' <- try_catch
                   (do balance <- call_getBalance provider (publicKey wallet);
                    ret {| totalBalance := totalBalance acc + balance;
                           zeroBalanceCount :=
                             if bool_decide (balance = 0)
                             then Datatypes.S (zeroBalanceCount acc)
                             else zeroBalanceCount acc |})
                   (fun error => ret acc);
      balances_loop provider rest acc'
  end.

Definition handle (request : Request) : M (Sys S W) Report :=
  do provider <- lift_result (chainProviderFactory (chain request));
  do wallets <- on_store (store_getWallets walletStore (chain request));
  balances_loop provider wallets {| totalBalance := 0; zeroBalanceCount := 0 |}.

End Handler.
End GetBalancesHandler.

(** [`${x}`] for [x] a string or [undefined]. *)
Definition show_address (a : option string) : string := default "undefined" a.

Module FundWalletsHandler.
Section Handler.
Context {S W : Type}.
Variable chainProviderFactory : ChainProviderFactory W.
Variable walletStore : WalletStore S.

Record Request : Type := {
  chain : string;
  amount : float;
  minBalance : float
}.

(** The two figures of the closing log line. *)
Record Report : Type := {
  fundedCount : nat;
  skippedCount : nat
}.

(** [request.chain === 'solana' ? BigInt(Math.floor(x * 1e9))
                                : BigInt(Math.floor(x * 1e18))] *)
Definition in_chain_units (chain_ : string) (x : float) : Result Z :=
  if bool_decide (chain_ = "solana")
  then BigInt_floor (x * 1e9)%float
  else BigInt_floor (x * 1e18)%float.

Fixpoint fund_loop (provider : ChainProvider W) (request : Request) (funder : Wallet)
    (wallets : list Wallet) (acc : Report) : M (Sys S W) Report :=
  match wallets with
  | [] => ret acc
  | wallet :: rest =>
      do walletBalance <- call_getBalance provider (publicKey wallet);
      do minBalanceInChainUnits <- lift_result (in_chain_units (chain request) (minBalance request));
      if minBalanceInChainUnits <=? walletBalance then
        fund_loop provider request funder rest
          {| fundedCount := fundedCount acc; skippedCount := Datatypes.S (skippedCount acc) |}
      else
        do acc' <- try_catch
                     (run note (Called_fundWallet (amount request) funder (publicKey wallet));
                      do result <- on_env (fundWallet provider (amount request) funder
                                             (publicKey wallet));
                      ret (if successful result
                           then {| fundedCount := Datatypes.S (fundedCount acc);
                                   skippedCount := skippedCount acc |}
                           else acc))
                     (fun error => ret acc);
        fund_loop provider request funder rest acc'
  end.

Definition handle (request : Request) : M (Sys S W) Report :=
  do provider <- lift_result (chainProviderFactory (chain request));
  do wallets <- on_store (store_getWallets walletStore (chain request));
  let funder := getFunderWallet provider in
  do perWallet <- lift_result (in_chain_units (chain request) (amount request));
  let total := perWallet * Z.of_nat (length wallets) in
  do balance <- call_getBalance provider (publicKey funder);
  if balance <? total then
    throw (Error ("Funder " +:+ show_address (publicKey funder) +:+ " balance of "
                    +:+ pretty balance +:+ " is less than the required funding amount of "
                    +:+ pretty total))
  else
    fund_loop provider request funder wallets {| fundedCount := 0; skippedCount := 0 |}.

End Handler.
End FundWalletsHandler.

Module DrainWalletsHandler.

Record Request : Type := {
  chain : string
}.

(** The four counters behind the closing log lines. *)
Record Report : Type := {
  successCount : nat;
  failureCount : nat;
  zeroBalanceCount : nat;
  insufficientBalanceCount : nat
}.

(** What an observer of the handler sees happen, in order. A call is issued
    when [batch.map] reaches its wallet and settles when its promise does. *)
Inductive DrainEvent : Type :=
| Batch_started (batchNumber totalBatches : nat) (batch : list Wallet)
| Issued (index : nat) (wallet : Wallet)
| Settled (index : nat) (outcome : Result TransactionResult)
| Batch_completed (batchNumber : nat).

Definition concurrencyLimit : nat := 20.

(** [reason?.includes(text)] *)
Definition reason_includes (result : TransactionResult) (text : string) : bool :=
  match reason result with
  | Some r => includes r text
  | None => false
  end.

(** The [.then] and [.catch] callbacks chained on one call. *)
Definition on_settled (outcome : Result TransactionResult) (c : Report) : Report :=
  match outcome with
  | Ok result =>
      if successful result then
        {| successCount := S (successCount c); failureCount := failureCount c;
           zeroBalanceCount := zeroBalanceCount c;
           insufficientBalanceCount := insufficientBalanceCount c |}
      else if reason_includes result "balance is 0" then
        {| successCount := successCount c; failureCount := S (failureCount c);
           zeroBalanceCount := S (zeroBalanceCount c);
           insufficientBalanceCount := insufficientBalanceCount c |}
      else if reason_includes result "insufficient balance" then
        {| successCount := successCount c; failureCount := S (failureCount c);
           zeroBalanceCount := zeroBalanceCount c;
           insufficientBalanceCount := S (insufficientBalanceCount c) |}
      else
        {| successCount := successCount c; failureCount := S (failureCount c);
           zeroBalanceCount := zeroBalanceCount c;
           insufficientBalanceCount := insufficientBalanceCount c |}
  | Throw error =>
      {| successCount := successCount c; failureCount := S (failureCount c);
         zeroBalanceCount := zeroBalanceCount c;
         insufficientBalanceCount := insufficientBalanceCount c |}
  end.

Section Handler.
Context {S W : Type}.
Variable chainProviderFactory : ChainProviderFactory W.
Variable walletStore : WalletStore S.
(** The calls of one batch are in flight together; the network decides what
    each one settles to and in which order they do: [settles i w] is the
    outcome of [provider.drainWallet(funder.publicKey, w)] for the wallet at
    registry position [i], and [pick] names, among the positions in flight,
    the place of the call that settles next. *)
Variable settles : nat -> Wallet -> Result TransactionResult.
Variable pick : list nat -> nat.

(** [await Promise.all(drainPromises)] with [n] promises pending. *)
Fixpoint settle_all (n : nat) (inflight : list (nat * Wallet)) (c : Report)
    (trace : list DrainEvent) : Report * list DrainEvent :=
  match n with
  | O => (c, trace)
  | Datatypes.S n' =>
      let k := (pick (inflight.*1) `mod` length inflight)%nat in
      match inflight !! k with
      | Some (i, wallet) =>
          let outcome := settles i wallet in
          settle_all n' (delete k inflight) (on_settled outcome c)
            (trace ++ [Settled i outcome])%list
      | None => (c, trace)
      end
  end.

(** [wallets.slice(i, i + concurrencyLimit)] *)
Definition slice (wallets : list Wallet) (i j : nat) : list Wallet :=
  take (j - i) (drop i wallets).

(** [for (let i = 0; i < wallets.length; i += concurrencyLimit)]; [fuel]
    bounds the number of rounds. *)
Fixpoint drain_loop (fuel : nat) (wallets : list Wallet) (i : nat) (c : Report)
    (trace : list DrainEvent) : Report * list DrainEvent :=
  match fuel with
  | O => (c, trace)
  | Datatypes.S fuel' =>
      if bool_decide (i < length wallets)%nat then
        let batch := slice wallets i (i + concurrencyLimit) in
        let batchNumber := (i / concurrencyLimit + 1)%nat in
        let totalBatches := ((length wallets + concurrencyLimit - 1) / concurrencyLimit)%nat in
        let calls := imap (fun k wallet => ((i + k)%nat, wallet)) batch in
        let trace1 := (trace ++ [Batch_started batchNumber totalBatches batch]
                         ++ map (fun '(k, wallet) => Issued k wallet) calls)%list in
        let '(c', trace2) := settle_all (length calls) calls c trace1 in
        drain_loop fuel' wallets (i + concurrencyLimit)%nat c'
          (trace2 ++ [Batch_completed batchNumber])%list
      else (c, trace)
  end.

Definition handle (request : Request) : M (Sys S W) (Report * list DrainEvent) :=
  do provider <- lift_result (chainProviderFactory (chain request));
  do wallets <- on_store (store_getWallets walletStore (chain request));
  let funder := getFunderWallet provider in
  ret (drain_loop (length wallets) wallets 0
         {| successCount := 0; failureCount := 0; zeroBalanceCount := 0;
            insufficientBalanceCount := 0 |} []).

End Handler.
End DrainWalletsHandler.

(** ** src/main.ts: the four commands *)

Module Commands.

(** How a command leaves: its promise resolves, the process exits, or the
    promise rejects (which [main] then logs before it exits with 1). *)
Inductive Ending : Type :=
| Resolved
| Exited (code : Z)
| Rejected (error : JsError).

Section Commands.
Context {W : Type}.
(** [parseInt(text, 10)], [None] for NaN, and [parseFloat(text)]. *)
Variable parseInt : string -> option Z.
Variable parseFloat : string -> float.
(** [new Factory(new Config(CONFIG_PATH))] *)
Variable providerFactory : ChainProviderFactory W.
Variable settles : nat -> Wallet -> Result TransactionResult.
Variable pick : list nat -> nat.

(** What outlives a command: the data file, the network, and what was
    called. *)
Definition Process : Type := Sys JsonStore.FileState W.

(** [new JsonStore({ dataDir: DATA_DIR })] over the file as it is on disk. *)
Definition createStore (disk : JsonStore.FileState) : JsonStore.t :=
  {| JsonStore.initialized := false; JsonStore.file := disk |}.

(** [await handler.handle(..)] on a store made for this command. *)
Definition awaiting {A} (m : M (Sys JsonStore.t W) A) : Process -> Process * Ending :=
  fun p =>
    let '(s', r) := m {| store := createStore (store p); env := env p; calls := calls p |} in
    ({| store := JsonStore.file (store s'); env := env s'; calls := calls s' |},
     match r with
     | Ok _ => Resolved
     | Throw error => Rejected error
     end).

(** [process.exit(code)] *)
Definition exit (code : Z) : Process -> Process * Ending :=
  fun p => (p, Exited code).

Definition create (args : list string) : Process -> Process * Ending :=
  match args with
  | [chain; countText] =>
      match parseInt countText with
      | None => exit 1
      | Some count =>
          if count <=? 0 then exit 1
          else awaiting (CreateWalletsHandler.handle providerFactory JsonStore.as_store
                           {| CreateWalletsHandler.chain := chain;
                              CreateWalletsHandler.count := count |})
      end
  | _ => exit 1
  end.

Definition fund (args : list string) : Process -> Process * Ending :=
  match args with
  | [chain; amountText] =>
      let amount := parseFloat amountText in
      if (amount <=? 0)%float then exit 1
      else awaiting (FundWalletsHandler.handle providerFactory JsonStore.as_store
                       {| FundWalletsHandler.chain := chain;
                          FundWalletsHandler.amount := amount;
                          FundWalletsHandler.minBalance := amount |})
  | _ => exit 1
  end.

Definition balances (args : list string) : Process -> Process * Ending :=
  match args with
  | [chain] =>
      awaiting (GetBalancesHandler.handle providerFactory JsonStore.as_store
                  {| GetBalancesHandler.chain := chain |})
  | _ => exit 1
  end.

Definition drain (args : list string) : Process -> Process * Ending :=
  match args with
  | [chain] =>
      awaiting (DrainWalletsHandler.handle providerFactory JsonStore.as_store settles pick
                  {| DrainWalletsHandler.chain := chain |})
  | _ => exit 1
  end.

End Commands.
End Commands.

(** ** src/utils/logger.ts *)

Module Logger.

Inductive LogLevel : Type := ERROR | WARN | INFO | DEBUG.

#[global] Instance LogLevel_eq_dec : EqDecision LogLevel.
Proof. solve_decision. Defined.

(** The value of the enum member, which is its name. *)
Definition text_of (level : LogLevel) : string :=
  match level with
  | ERROR => "ERROR"
  | WARN => "WARN"
  | INFO => "INFO"
  | DEBUG => "DEBUG"
  end.

(** [Object.values(LogLevel)] *)
Definition levels : list LogLevel := [ERROR; WARN; INFO; DEBUG].

(** [list.indexOf(x)], -1 when [x] is not there. *)
Definition indexOf (l : list LogLevel) (x : LogLevel) : Z :=
  match list_find (fun y => y = x) l with
  | Some (i, _) => Z.of_nat i
  | None => -1
  end.

Record t : Type := {
  level : LogLevel;
  includeTimestamp : bool
}.

(** [Logger.getInstance()]: the constructor is private and is only ever
    called without arguments. *)
Definition getInstance : t := {| level := INFO; includeTimestamp := true |}.

Inductive Console : Type := console_error | console_warn | console_log.

(** One call on the console: the method, the text, and the second argument,
    [None] standing for the empty string passed when there is no datum. *)
Record Line (D : Type) : Type := {
  method : Console;
  text : string;
  datum : option D
}.
Arguments method {D} _.
Arguments text {D} _.
Arguments datum {D} _.

Section Logger.
Context {D : Type}.
Variable this : t.
(** [new Date().toISOString()] at the time of the call. *)
Variable now : string.

Definition shouldLog (level_ : LogLevel) : bool :=
  indexOf levels level_ <=? indexOf levels (level this).

Definition log (level_ : LogLevel) (message : string) (context : option string)
    (data : option D) (out : list (Line D)) : list (Line D) :=
  let timestamp := if includeTimestamp this then "[" +:+ now +:+ "] " else "" in
  let contextStr := match context with
                    | Some c => if falsy_string c then "" else "[" +:+ c +:+ "] "
                    | None => ""
                    end in
  let prefix := timestamp +:+ text_of level_ +:+ " " +:+ contextStr in
  out ++ [{| method := match level_ with
                       | ERROR => console_error
                       | WARN => console_warn
                       | INFO | DEBUG => console_log
                       end;
             text := prefix +:+ message;
             datum := data |}].

Definition error (message : string) (context : option string) (data : option D)
    (out : list (Line D)) : list (Line D) :=
  log ERROR message context data out.

Definition warn (message : string) (context : option string) (data : option D)
    (out : list (Line D)) : list (Line D) :=
  if shouldLog WARN then log WARN message context data out else out.

Definition info (message : string) (context : option string) (data : option D)
    (out : list (Line D)) : list (Line D) :=
  if shouldLog INFO then log INFO message context data out else out.

Definition debug (message : string) (context : option string) (data : option D)
    (out : list (Line D)) : list (Line D) :=
  if shouldLog DEBUG then log DEBUG message context data out else out.

End Logger.
End Logger.

(** ** A scripted network, for running the code on examples *)

Module Script.

Record World : Type := {
  balances : list (string * Z);   (* what the node answers, per address *)
  fees : FeeData;
  minted : nat                    (* keys generated so far *)
}.

Definition address_of (key : string) : Result string :=
  if falsy_string key then Throw (TypeError "invalid private key")
  else Ok ("addr-" +:+ key).

Definition generate : M World (string * string) :=
  fun w => let key := "key-" +:+ pretty (minted w) in
           ({| balances := balances w; fees := fees w; minted := S (minted w) |},
            Ok (key, "addr-" +:+ key)).

Definition balance_of (address : string) : M World Z :=
  fun w => match List.find (fun entry => bool_decide (entry.1 = address)) (balances w) with
           | Some entry => (w, Ok entry.2)
           | None => (w, Throw (Error "could not reach the node"))
           end.

Definition valid_address (address : option string) : Result string :=
  match address with
  | Some a => if falsy_string a then Throw (Error "Invalid public key input") else Ok a
  | None => Throw (Error "Invalid public key input")
  end.

Definition evm : EvmRpc World :=
  {| evm_wallet := address_of;
     evm_createRandom := generate;
     evm_getBalance := fun address => do a <- lift_result (valid_address address); balance_of a;
     evm_getFeeData := fun w => (w, Ok (fees w));
     evm_sendTransaction := fun _ _ => ret "0xhash";
     evm_wait := fun _ => ret (Some 1) |}.

Definition solana : SolanaRpc World :=
  {| sol_fromSecretKey := address_of;
     sol_generate := generate;
     sol_PublicKey := valid_address;
     sol_getBalance := balance_of;
     sol_sendAndConfirmTransaction := fun _ _ _ => ret "signature" |}.

Definition no_fees : FeeData :=
  {| gasPrice := None; maxFeePerGas := None; maxPriorityFeePerGas := None |}.

Definition start (table : list (string * Z)) (fee : FeeData) : Env World :=
  {| world := {| balances := table; fees := fee; minted := 0 |}; journal := [] |}.

(** A configuration with one chain of each family, a third one that is
    Solana by type but not by name, and a fourth one under the empty name. *)
Definition config : Config :=
  {| getNetworkConfigs :=
       Ok [ {| name := "avalanche"; rpc_url := "https://avax.test"; explorer := "";
               estimatedTransferFee := 0; type := "evm" |};
            {| name := "solana"; rpc_url := "https://sol.test"; explorer := "";
               estimatedTransferFee := 0; type := "solana" |};
            {| name := "solana-devnet"; rpc_url := "https://sol.dev"; explorer := "";
               estimatedTransferFee := 0; type := "solana" |};
            {| name := ""; rpc_url := "https://unnamed.test"; explorer := "";
               estimatedTransferFee := 0; type := "evm" |} ];
     EVM_FUNDER_PRIVATE_KEY := Some "evm-funder-key";
     SOLANA_FUNDER_PRIVATE_KEY := Some "sol-funder-key" |}.

Definition factory : ChainProviderFactory World :=
  Factory.forChain (fun _ => evm) (fun _ => solana) config.

Definition boot (st : JsonStore.t) (e : Env World) : Sys JsonStore.t World :=
  {| store := st; env := e; calls := [] |}.

Definition wallet_ (key address walletAlias : string) : Wallet :=
  {| privateKey := key; publicKey := Some address; alias := walletAlias |}.

End Script.

(** * The vocabulary of the properties *)

Section StoreVocabulary.
Import JsonStore.

(** What a read of the store yields, if it yields: the parsed object, the
    empty object for a file that is created or reset on the way. *)
Definition contents (s : JsonStore.t) : option WalletsData :=
  match file s with
  | Parsed data => Some data
  | Corrupt => Some ∅
  | Missing => if initialized s then None else Some ∅
  end.

Definition opened (data : WalletsData) : JsonStore.t :=
  {| initialized := true; file := Parsed data |}.



Definition add_skipped (n : nat) (c : Summary) : Summary :=
  {| newCount := newCount c; updatedCount := updatedCount c;
     skippedCount := (skippedCount c + n)%nat |}.

(** The wallets of a batch that carry a public key. *)
Definition keyed (ws : list Wallet) : list Wallet :=
  filter (fun w => no_publicKey w = false) ws.


End StoreVocabulary.

Section ProviderVocabulary.
Context {W : Type}.

Definition zero_balance_reason : string := "wallet balance is 0".

Definition fee_reason : string := "wallet has insufficient balance to cover the transfer fee".

(** The fee [drainWallet] of the EVM provider sets aside: the gas limit
    times [maxFeePerGas || gasPrice]. *)
Definition evm_fee (this : EVMChainProvider.t W) (data : FeeData) : option Z :=
  match bigint_or (maxFeePerGas data) (gasPrice data) with
  | Some price => if bool_decide (price = 0) then None
                  else Some (EVMChainProvider.estimatedTransferGasLimit this * price)
  | None => None
  end.


End ProviderVocabulary.

Definition script_evm : EVMChainProvider.t Script.World :=
  {| EVMChainProvider.funder := Script.wallet_ "evm-funder-key" "addr-evm-funder-key" "evm-funder";
     EVMChainProvider.estimatedTransferGasLimit := 21000;
     EVMChainProvider.provider := Script.evm |}.

Definition script_solana : SolanaChainProvider.t Script.World :=
  {| SolanaChainProvider.funder :=
       Script.wallet_ "sol-funder-key" "addr-sol-funder-key" "solana-funder";
     SolanaChainProvider.estimatedMinimumFee := 5000;
     SolanaChainProvider.connection := Script.solana |}.

(** One lamport, in SOL: the double nearest to 1e-9. *)
Definition one_lamport : float := 0x1.12e0be826d695p-30.

Definition numbered_wallet (k : nat) : Wallet :=
  Script.wallet_ ("k" +:+ pretty k) ("a" +:+ pretty k) ("wallet-" +:+ pretty k).




Section FundVocabulary.
Import FundWalletsHandler.



End FundVocabulary.

Section DrainVocabulary.
Import DrainWalletsHandler.

Definition started_batch (ev : DrainEvent) : option (list Wallet) :=
  match ev with
  | Batch_started _ _ batch => Some batch
  | _ => None
  end.

Definition issued_call (ev : DrainEvent) : option (nat * Wallet) :=
  match ev with
  | Issued i wallet => Some (i, wallet)
  | _ => None
  end.

Definition settled_index (ev : DrainEvent) : option nat :=
  match ev with
  | Settled i _ => Some i
  | _ => None
  end.

(** The batches, the calls and the settlements of a trace, in its order. *)
Definition batches_of (trace : list DrainEvent) : list (list Wallet) := omap started_batch trace.

Definition issued_of (trace : list DrainEvent) : list (nat * Wallet) := omap issued_call trace.

Definition settled_of (trace : list DrainEvent) : list nat := omap settled_index trace.

(** The number of the batch that the wallet at registry position [i] falls in. *)
Definition batch_of (i : nat) : nat := (i / concurrencyLimit)%nat.

Definition total_batches (n : nat) : nat :=
  ((n + concurrencyLimit - 1) / concurrencyLimit)%nat.

(** The [k]-th run of [concurrencyLimit] wallets of the registry list. *)
Definition expected_batch (wallets : list Wallet) (k : nat) : list Wallet :=
  take concurrencyLimit (drop (concurrencyLimit * k) wallets).

Definition issue (call : nat * Wallet) : DrainEvent := Issued call.1 call.2.

(** What the loop appends to the trace from its round at position [20 * m]
    on. *)
Record rounds_from (wallets : list Wallet) (m : nat) (ext : list DrainEvent) : Prop := {
  rounds_batches :
    batches_of ext
    = map (expected_batch wallets) (seq m (total_batches (length wallets) - m));
  rounds_cover : concat (batches_of ext) = drop (20 * m) wallets;
  rounds_issued_at : (issued_of ext).*1 = seq (20 * m) (length wallets - 20 * m);
  rounds_issued : (issued_of ext).*2 = drop (20 * m) wallets;
  rounds_settled : settled_of ext ≡ₚ seq (20 * m) (length wallets - 20 * m);
  rounds_order :
    forall p j w, ext !! p = Some (Issued j w) ->
    forall i, (20 * m <= i)%nat -> (i < length wallets)%nat -> (batch_of i < batch_of j)%nat ->
    exists q o, (q < p)%nat /\ ext !! q = Some (Settled i o)
}.

End DrainVocabulary.

(** * Further vocabulary *)

Section RegistryLookups.
Import JsonStore.




End RegistryLookups.

Section HandlerVocabulary.
Context {W : Type}.


End HandlerVocabulary.

Definition no_report : DrainWalletsHandler.Report :=
  {| DrainWalletsHandler.successCount := 0; DrainWalletsHandler.failureCount := 0;
     DrainWalletsHandler.zeroBalanceCount := 0;
     DrainWalletsHandler.insufficientBalanceCount := 0 |}.

(** The counters after the calls have settled one by one in registry
    order. *)
Definition in_registry_order (settles : nat -> Wallet -> Result TransactionResult)
    (wallets : list Wallet) : DrainWalletsHandler.Report :=
  foldr DrainWalletsHandler.on_settled no_report (imap settles wallets).



Section LoggerVocabulary.
Context {D : Type}.

(** The place of a level in the order of the enum, most severe first. *)
Definition verbosity (level_ : Logger.LogLevel) : nat :=
  match level_ with
  | Logger.ERROR => 0
  | Logger.WARN => 1
  | Logger.INFO => 2
  | Logger.DEBUG => 3
  end.

(** The method of the logger that speaks at a level. *)
Definition said (this : Logger.t) (now : string) (level_ : Logger.LogLevel)
  : string -> option string -> option D -> list (Logger.Line D) -> list (Logger.Line D) :=
  match level_ with
  | Logger.ERROR => Logger.error this now
  | Logger.WARN => Logger.warn this now
  | Logger.INFO => Logger.info this now
  | Logger.DEBUG => Logger.debug this now
  end.

End LoggerVocabulary.

(** * Properties *)

(** ** The registry *)

Section StoreFacts.
Import JsonStore.

Lemma readData_spec s :
  readData s = match contents s with
               | Some data => (opened data, Ok data)
               | None => (s, Throw (SystemError "ENOENT"))
               end.
Proof.
  destruct s as [[] []]; reflexivity.
Qed.

Lemma writeData_spec s data :
  writeData data s = (opened data, Ok tt).
Proof.
  destruct s as [[] []]; reflexivity.
Qed.


Lemma falsy_string_true s : falsy_string s = true <-> s = "".
Proof. unfold falsy_string. apply bool_decide_eq_true. Qed.

Lemma falsy_string_false s : falsy_string s = false <-> s <> "".
Proof. unfold falsy_string. apply bool_decide_eq_false. Qed.

Lemma getWallets_spec chain s :
  chain <> "" ->
  getWallets chain s = match contents s with
                       | Some data => (opened data, Ok (wallets_of data chain))
                       | None => (s, Throw (SystemError "ENOENT"))
                       end.
Proof.
  intros Hc. unfold getWallets.
  apply falsy_string_false in Hc. rewrite Hc.
  unfold bind. rewrite readData_spec.
  destruct (contents s); reflexivity.
Qed.

Lemma getWallets_empty_chain s : getWallets "" s = (s, Ok []).
Proof. reflexivity. Qed.

End StoreFacts.

Section AddFacts.
Import JsonStore.

Lemma add_spec chain walletInput s :
  chain <> "" -> walletInput <> Undefined ->
  add chain walletInput s =
    match contents s with
    | None => (s, Throw (SystemError "ENOENT"))
    | Some data =>
        match add_loop (wallets_in walletInput) (entry_of data chain) no_counts with
        | Ok (entry', c) => (opened (<[chain := entry']> data), Ok (Some c))
        | Throw e => (opened data, Throw e)
        end
    end.
Proof.
  intros Hc Hi. unfold add.
  apply falsy_string_false in Hc. rewrite Hc.
  assert (Hgo : forall (k : WalletsData -> M JsonStore.t (option Summary)),
             bind readData k s =
             match contents s with
             | None => (s, Throw (SystemError "ENOENT"))
             | Some data => k data (opened data)
             end).
  { intros k. unfold bind. rewrite readData_spec. destruct (contents s); reflexivity. }
  destruct walletInput as [|w|ws]; [congruence| |];
    rewrite Hgo; destruct (contents s) as [data|]; try reflexivity;
    unfold bind, lift_result, entry_of, wallets_in, no_counts;
    match goal with |- context [add_loop ?a ?b ?c] => destruct (add_loop a b c) as [[e c']|e] end;
    try reflexivity; rewrite writeData_spec; reflexivity.
Qed.

Lemma add_guarded chain walletInput s :
  chain = "" \/ walletInput = Undefined -> add chain walletInput s = (s, Ok None).
Proof.
  intros [-> | ->]; [reflexivity|].
  unfold add. destruct (falsy_string chain); reflexivity.
Qed.



Lemma wallets_of_insert_ne data chain chain' v :
  chain <> chain' -> wallets_of (<[chain := v]> data) chain' = wallets_of data chain'.
Proof. intros H. unfold wallets_of. rewrite lookup_insert_ne by exact H. reflexivity. Qed.

Lemma wallets_of_entry data chain :
  wallets_of (<[chain := entry_of data chain]> data) chain = wallets_of data chain.
Proof.
  unfold wallets_of, entry_of. rewrite lookup_insert_eq.
  destruct (data !! chain) as [[| [] | n | str | | l]|]; simpl; try reflexivity.
  - destruct (bool_decide (n = 0)); reflexivity.
  - destruct (falsy_string str); reflexivity.
Qed.




End AddFacts.

Section Registry.
Import JsonStore.





(** A chain entry that is neither a list nor falsy: [findIndex] is not
    there to be called. *)
Lemma add_to_non_list_throws :
  let w := Script.wallet_ "k1" "A" "wallet-0" in
  let s := opened {[ "avalanche" := JObject ]} in
  getWallets "avalanche" s = (s, Ok []) /\
  add "avalanche" (Single w) s
  = (s, Throw (TypeError "data[chain].findIndex is not a function")).
Proof.
  split; reflexivity.
Qed.

End Registry.

Section RegistryFrame.
Import JsonStore.

Lemma add_loop_counts ws : forall entry c n,
  add_loop ws entry (add_skipped n c) =
    match add_loop ws entry c with
    | Ok (e, c') => Ok (e, add_skipped n c')
    | Throw err => Throw err
    end.
Proof.
  induction ws as [|w ws IH]; intros entry c n; simpl; [reflexivity|].
  destruct (publicKey w) as [pk|].
  - destruct (falsy_string pk).
    + apply (IH entry (count_skipped c) n).
    + destruct entry; try reflexivity.
      destruct (findIndex pk wallets).
      * apply (IH _ (count_updated c) n).
      * apply (IH _ (count_new c) n).
  - apply (IH entry (count_skipped c) n).
Qed.

Lemma count_skipped_add c : count_skipped c = add_skipped 1 c.
Proof. destruct c. unfold count_skipped, add_skipped. simpl. f_equal. lia. Qed.

Lemma add_loop_skip w ws entry c :
  no_publicKey w = true ->
  add_loop (w :: ws) entry c = add_loop ws entry (count_skipped c).
Proof.
  unfold no_publicKey. simpl. destruct (publicKey w); [|reflexivity].
  intros ->. reflexivity.
Qed.

Lemma keyed_cons w ws :
  keyed (w :: ws) = if no_publicKey w then keyed ws else w :: keyed ws.
Proof.
  unfold keyed. rewrite filter_cons.
  destruct (no_publicKey w); [rewrite decide_False by discriminate | rewrite decide_True];
    reflexivity.
Qed.

Lemma add_loop_keyed ws : forall entry c,
  add_loop ws entry c =
    match add_loop (keyed ws) entry c with
    | Ok (e, c') => Ok (e, add_skipped (length ws - length (keyed ws)) c')
    | Throw err => Throw err
    end.
Proof.
  assert (Hlen : forall l : list Wallet, (length (keyed l) <= length l)%nat).
  { intros l. apply length_filter. }
  assert (Hid : forall c, add_skipped 0 c = c).
  { intros []. unfold add_skipped. simpl. f_equal. lia. }
  induction ws as [|w ws IH]; intros entry c.
  - simpl. rewrite Hid. reflexivity.
  - rewrite keyed_cons. destruct (no_publicKey w) eqn:Hw.
    + rewrite add_loop_skip by exact Hw.
      rewrite count_skipped_add, add_loop_counts, IH.
      destruct (add_loop (keyed ws) entry c) as [[e c']|]; [|reflexivity].
      f_equal. f_equal. destruct c'. unfold add_skipped. simpl. f_equal.
      specialize (Hlen ws). lia.
    + unfold no_publicKey in Hw. simpl add_loop.
      destruct (publicKey w) as [pk|]; [|discriminate]. rewrite Hw.
      destruct entry; try reflexivity.
      destruct (findIndex pk wallets); rewrite IH;
        match goal with |- context [add_loop (keyed ws) ?a ?b] =>
          destruct (add_loop (keyed ws) a b) as [[e c']|] end;
        try reflexivity; simpl; repeat f_equal; specialize (Hlen ws); lia.
Qed.


Lemma add_loop_no_skip ws : forall entry c e c',
  Forall (fun w => no_publicKey w = false) ws ->
  add_loop ws entry c = Ok (e, c') -> skippedCount c' = skippedCount c.
Proof.
  induction ws as [|w ws IH]; intros entry c e c' Hall H; simpl in H.
  - injection H as <- <-. reflexivity.
  - apply Forall_cons in Hall as [Hw Hall]. unfold no_publicKey in Hw.
    destruct (publicKey w) as [pk|]; [|discriminate]. rewrite Hw in H.
    destruct entry; try discriminate.
    destruct (findIndex pk wallets); apply (IH _ _ _ _ Hall) in H; exact H.
Qed.

Lemma keyed_nil ws : Forall (fun w => no_publicKey w = true) ws -> keyed ws = [].
Proof.
  induction 1 as [|w ws Hw _ IH]; [reflexivity|].
  rewrite keyed_cons, Hw. exact IH.
Qed.

Lemma keyed_Forall ws : Forall (fun w => no_publicKey w = false) (keyed ws).
Proof.
  apply Forall_forall. intros w Hin. apply list_elem_of_filter in Hin. tauto.
Qed.

Lemma getWallets_result chain s :
  (getWallets chain s).2 =
    if falsy_string chain then Ok []
    else match contents s with
         | Some data => Ok (wallets_of data chain)
         | None => Throw (SystemError "ENOENT")
         end.
Proof.
  destruct (falsy_string chain) eqn:Hc.
  - apply falsy_string_true in Hc as ->. reflexivity.
  - apply falsy_string_false in Hc. rewrite getWallets_spec by exact Hc.
    destruct (contents s); reflexivity.
Qed.

(** C9: a wallet whose public key is missing or empty is counted as skipped
    and leaves no trace in the store: [add] ends in the very state it ends in
    without those wallets, with the same added and updated counts; a batch
    of such wallets only leaves the chain's list as it was, and on a named
    chain of a readable store [add] returns with all of them counted as
    skipped. *)
Theorem add_skips_keyless (s : JsonStore.t) (chain : string) (ws : list Wallet) :
  (add chain (Batch ws) s).1 = (add chain (Batch (keyed ws)) s).1 /\
  (forall c, (add chain (Batch ws) s).2 = Ok (Some c) ->
     skippedCount c = (length ws - length (keyed ws))%nat /\
     exists c', (add chain (Batch (keyed ws)) s).2 = Ok (Some c') /\
                skippedCount c' = 0%nat /\
                newCount c = newCount c' /\ updatedCount c = updatedCount c') /\
  (Forall (fun w => no_publicKey w = true) ws ->
     (getWallets chain (add chain (Batch ws) s).1).2 = (getWallets chain s).2 /\
     (chain <> "" -> contents s <> None -> exists c, (add chain (Batch ws) s).2 = Ok (Some c)) /\
     forall c, (add chain (Batch ws) s).2 = Ok (Some c) ->
       skippedCount c = length ws /\ newCount c = 0%nat /\ updatedCount c = 0%nat).
Proof.
  destruct (decide (chain = "")) as [->|Hc].
  { split; [reflexivity|]. split; [discriminate|]. intros _.
    split; [reflexivity|]. split; [congruence | discriminate]. }
  rewrite !add_spec by (exact Hc || discriminate).
  destruct (contents s) as [data|] eqn:Hd.
  2:{ split; [reflexivity|]. split; [discriminate|]. intros _.
      split; [reflexivity|]. split; [congruence | discriminate]. }
  simpl wallets_in. rewrite (add_loop_keyed ws).
  destruct (add_loop (keyed ws) (entry_of data chain) no_counts) as [[e c']|err] eqn:E.
  - split; [reflexivity|]. split.
    + intros c [= <-]. pose proof (add_loop_no_skip _ _ _ _ _ (keyed_Forall ws) E) as Hs.
      simpl in Hs. split; [simpl; lia|].
      exists c'. repeat split. exact Hs.
    + intros Hall.
      pose proof (keyed_nil ws Hall) as Hk.
      rewrite Hk in E. simpl in E. injection E as <- <-. split; [|split].
      * rewrite !getWallets_result. simpl. rewrite Hd.
        destruct (falsy_string chain); [reflexivity|].
        rewrite wallets_of_entry. reflexivity.
      * intros _ _. eexists. reflexivity.
      * intros c [= <-]. rewrite Hk. simpl. repeat split; lia.
  - split; [reflexivity|]. split; [discriminate|]. intros Hall.
    pose proof (keyed_nil ws Hall) as Hk.
    rewrite Hk in E. discriminate E.
Qed.

(** C9, instance: a batch of one wallet without a key and one with an empty
    key. *)
Lemma add_skips_keyless_witness :
  let keyless := {| privateKey := "k1"; publicKey := None; alias := "wallet-0" |} in
  let blank := {| privateKey := "k2"; publicKey := Some ""; alias := "wallet-1" |} in
  let s := opened {[ "avalanche" := JArray [Script.wallet_ "k0" "A" "w"] ]} in
  (getWallets "avalanche" (add "avalanche" (Batch [keyless; blank]) s).1).2
    = Ok [Script.wallet_ "k0" "A" "w"] /\
  forall c, (add "avalanche" (Batch [keyless; blank]) s).2 = Ok (Some c) ->
            skippedCount c = 2%nat /\ newCount c = 0%nat /\ updatedCount c = 0%nat.
Proof.
  intros keyless blank s.
  destruct (add_skips_keyless s "avalanche" [keyless; blank]) as (_ & _ & H).
  destruct H as (H1 & _ & H2).
  { repeat constructor. }
  split; [rewrite H1; reflexivity | exact H2].
Defined.

(** C10: [add] on one chain leaves what [getWallets] returns for any other
    chain, and that chain's entry in the file, as they were. *)
Theorem add_other_chain_unchanged (s : JsonStore.t) (c c' : string)
    (walletInput : WalletInput) :
  c <> c' ->
  (getWallets c' (add c walletInput s).1).2 = (getWallets c' s).2 /\
  forall data data',
    contents s = Some data -> contents (add c walletInput s).1 = Some data' ->
    data' !! c' = data !! c'.
Proof.
  intros Hne.
  destruct (decide (c = "")) as [->|Hc].
  { rewrite add_guarded by (left; reflexivity). split; [reflexivity|]. simpl. congruence. }
  destruct (decide (walletInput = Undefined)) as [->|Hi].
  { rewrite add_guarded by (right; reflexivity). split; [reflexivity|]. simpl. congruence. }
  rewrite add_spec by assumption.
  destruct (contents s) as [data|] eqn:Hd.
  2:{ split; [reflexivity|]. intros ? ? [=]. }
  destruct (add_loop _ _ _) as [[e k]|err]; simpl; split.
  - rewrite !getWallets_result. simpl. rewrite Hd.
    destruct (falsy_string c'); [reflexivity|].
    rewrite wallets_of_insert_ne by exact Hne. reflexivity.
  - intros ? ? [= <-] [= <-]. apply lookup_insert_ne. exact Hne.
  - rewrite !getWallets_result. simpl. rewrite Hd. reflexivity.
  - intros ? ? [= <-] [= <-]. reflexivity.
Qed.

(** C10, instance. *)
Lemma add_other_chain_unchanged_witness :
  let w := Script.wallet_ "k1" "A" "wallet-0" in
  let s := opened {[ "solana" := JArray [Script.wallet_ "k0" "S" "w"] ]} in
  (getWallets "solana" (add "avalanche" (Single w) s).1).2
    = Ok [Script.wallet_ "k0" "S" "w"].
Proof.
  intros w s.
  rewrite (proj1 (add_other_chain_unchanged s "avalanche" "solana" (Single w) ltac:(discriminate))).
  reflexivity.
Defined.

End RegistryFrame.

Section RegistryReads.
Import JsonStore.

Lemma add_single_batch chain w s : add chain (Single w) s = add chain (Batch [w]) s.
Proof. unfold add. destruct (falsy_string chain); reflexivity. Qed.

Lemma count_spec chain s :
  count chain s = match getWallets chain s with
                  | (s', Ok wallets) => (s', Ok (length wallets))
                  | (s', Throw e) => (s', Throw e)
                  end.
Proof.
  unfold count. destruct (falsy_string chain) eqn:Hc.
  - apply falsy_string_true in Hc as ->. reflexivity.
  - unfold bind. destruct (getWallets chain s) as [s' [l|e]]; reflexivity.
Qed.

(** C7: for a chain key that the stored object lacks or maps to something
    that is not a list, and for a file that does not parse, [getWallets]
    returns the empty list and raises nothing. In the last case every later
    read, of any chain, returns the empty list as well, over a file that
    holds the empty object: the call itself rewrites the file, unless it was
    made with the empty chain name, when the next read of a named chain
    does. *)
Theorem getWallets_degrades (s : JsonStore.t) (chain : string) :
  (forall data, file s = Parsed data ->
     data !! chain = None \/ (exists v, data !! chain = Some v /\ forall l, v <> JArray l) ->
     exists s', getWallets chain s = (s', Ok [])) /\
  (file s = Corrupt ->
     exists s', getWallets chain s = (s', Ok []) /\
       (chain <> "" -> s' = opened ∅) /\
       forall chain', exists s'',
         getWallets chain' s' = (s'', Ok []) /\
         count chain' s' = (s'', Ok 0%nat) /\
         (chain' <> "" -> s'' = opened ∅)).
Proof.
  split.
  - intros data Hfile Hentry.
    destruct (decide (chain = "")) as [->|Hc]; [eexists; reflexivity|].
    rewrite getWallets_spec by exact Hc. unfold contents. rewrite Hfile.
    exists (opened data). f_equal. f_equal. unfold wallets_of.
    destruct Hentry as [-> | (v & -> & Hv)]; [reflexivity|].
    destruct v; try reflexivity. exfalso. apply (Hv wallets). reflexivity.
  - intros Hfile.
    assert (Hlater : forall s1, s1 = s \/ s1 = opened ∅ ->
              forall chain', exists s'',
                getWallets chain' s1 = (s'', Ok []) /\
                count chain' s1 = (s'', Ok 0%nat) /\
                (chain' <> "" -> s'' = opened ∅)).
    { intros s1 Hs1 chain'. rewrite count_spec.
      destruct (decide (chain' = "")) as [->|Hc'].
      - exists s1. repeat split. congruence.
      - rewrite getWallets_spec by exact Hc'.
        assert (contents s1 = Some ∅) as ->.
        { destruct Hs1 as [-> | ->]; [|reflexivity]. unfold contents. rewrite Hfile. reflexivity. }
        exists (opened ∅). repeat split. }
    destruct (decide (chain = "")) as [->|Hc].
    + exists s. split; [reflexivity|]. split; [congruence|].
      apply Hlater. left. reflexivity.
    + rewrite getWallets_spec by exact Hc. unfold contents. rewrite Hfile.
      exists (opened ∅). split; [reflexivity|]. split; [reflexivity|].
      apply Hlater. right. reflexivity.
Qed.

(** C7, instances: a missing key, a key that maps to an object, and a file
    that does not parse. *)
Lemma getWallets_degrades_witness :
  (exists s', getWallets "solana" (opened {[ "avalanche" := JArray [] ]}) = (s', Ok [])) /\
  (exists s', getWallets "solana" (opened {[ "solana" := JObject ]}) = (s', Ok [])) /\
  (exists s', getWallets "solana" {| initialized := false; file := Corrupt |} = (s', Ok [])
              /\ s' = opened ∅).
Proof.
  split; [|split].
  - apply (proj1 (getWallets_degrades (opened {[ "avalanche" := JArray [] ]}) "solana")
             {[ "avalanche" := JArray [] ]} eq_refl).
    left. reflexivity.
  - apply (proj1 (getWallets_degrades (opened {[ "solana" := JObject ]}) "solana")
             {[ "solana" := JObject ]} eq_refl).
    right. exists JObject. split; [reflexivity | discriminate].
  - destruct (proj2 (getWallets_degrades {| initialized := false; file := Corrupt |} "solana")
                eq_refl) as (s' & H1 & H2 & _).
    exists s'. split; [exact H1 | apply H2; discriminate].
Defined.

End RegistryReads.

(** ** The providers *)

Section Drain.
Context {W : Type}.

Lemma evm_drain_zero (this : EVMChainProvider.t W) recipient wallet e sender w1 balance :
  evm_wallet (EVMChainProvider.provider this) (privateKey wallet) = Ok sender ->
  evm_getBalance (EVMChainProvider.provider this) (Some sender) (world e) = (w1, Ok balance) ->
  balance <= 0 ->
  EVMChainProvider.drainWallet this recipient wallet e
  = ({| world := w1; journal := journal e |}, Ok (soft_failure zero_balance_reason)).
Proof.
  intros Hkey Hbal Hzero.
  unfold EVMChainProvider.drainWallet, rethrowing, try_catch, bind, lift_result, rpc.
  rewrite Hkey, Hbal.
  destruct (Z.leb_spec balance 0); [reflexivity | lia].
Qed.

Lemma evm_drain_dust (this : EVMChainProvider.t W) recipient wallet e sender w1 w2
    balance data fee :
  evm_wallet (EVMChainProvider.provider this) (privateKey wallet) = Ok sender ->
  evm_getBalance (EVMChainProvider.provider this) (Some sender) (world e) = (w1, Ok balance) ->
  0 < balance ->
  evm_getFeeData (EVMChainProvider.provider this) w1 = (w2, Ok data) ->
  evm_fee this data = Some fee ->
  balance - fee <= 0 ->
  EVMChainProvider.drainWallet this recipient wallet e
  = ({| world := w2; journal := journal e |}, Ok (soft_failure fee_reason)).
Proof.
  intros Hkey Hbal Hpos Hdata Hfee Hdust.
  unfold EVMChainProvider.drainWallet, rethrowing, try_catch, bind, lift_result, rpc.
  rewrite Hkey, Hbal.
  destruct (Z.leb_spec balance 0); [lia|]. simpl.
  rewrite Hdata. simpl.
  unfold evm_fee in Hfee. unfold bigint_falsy.
  destruct (bigint_or (maxFeePerGas data) (gasPrice data)) as [price|]; [|discriminate].
  destruct (bool_decide (price = 0)); [discriminate|].
  injection Hfee as <-. simpl.
  destruct (Z.leb_spec (balance - EVMChainProvider.estimatedTransferGasLimit this * price) 0);
    [reflexivity | lia].
Qed.

Lemma solana_drain_zero (this : SolanaChainProvider.t W) recipient wallet e sender w1 balance :
  sol_fromSecretKey (SolanaChainProvider.connection this) (privateKey wallet) = Ok sender ->
  sol_getBalance (SolanaChainProvider.connection this) sender (world e) = (w1, Ok balance) ->
  balance <= 0 ->
  SolanaChainProvider.drainWallet this recipient wallet e
  = ({| world := w1; journal := journal e |}, Ok (soft_failure zero_balance_reason)).
Proof.
  intros Hkey Hbal Hzero.
  unfold SolanaChainProvider.drainWallet, rethrowing, try_catch, bind, lift_result, rpc.
  rewrite Hkey, Hbal.
  destruct (Z.leb_spec balance 0); [reflexivity | lia].
Qed.

Lemma solana_drain_dust (this : SolanaChainProvider.t W) recipient wallet e sender w1 balance :
  sol_fromSecretKey (SolanaChainProvider.connection this) (privateKey wallet) = Ok sender ->
  sol_getBalance (SolanaChainProvider.connection this) sender (world e) = (w1, Ok balance) ->
  0 < balance ->
  balance - SolanaChainProvider.estimatedMinimumFee this <= 0 ->
  SolanaChainProvider.drainWallet this recipient wallet e
  = ({| world := w1; journal := journal e |}, Ok (soft_failure fee_reason)).
Proof.
  intros Hkey Hbal Hpos Hdust.
  unfold SolanaChainProvider.drainWallet, rethrowing, try_catch, bind, lift_result, rpc.
  rewrite Hkey, Hbal.
  destruct (Z.leb_spec balance 0); [lia|]. simpl.
  destruct (Z.leb_spec balance (SolanaChainProvider.estimatedMinimumFee this));
    [reflexivity | lia].
Qed.

End Drain.

Section DrainClaim.

(** C3: in either family, a wallet whose queried balance is zero makes
    [drainWallet] return, not throw, an unsuccessful result with reason
    "wallet balance is 0"; a wallet with a positive balance that does not
    exceed the fee (gas limit times gas price on EVM chains, the fixed
    minimum fee on Solana) makes it return an unsuccessful result whose
    reason, "wallet has insufficient balance to cover the transfer fee",
    contains "insufficient balance to cover the transfer fee". Neither case
    submits a transfer. *)
Theorem drainWallet_soft_failures {W : Type} :
  (forall (this : EVMChainProvider.t W) recipient wallet (e : Env W) sender w1 balance,
     evm_wallet (EVMChainProvider.provider this) (privateKey wallet) = Ok sender ->
     evm_getBalance (EVMChainProvider.provider this) (Some sender) (world e)
       = (w1, Ok balance) ->
     (balance = 0 ->
        drainWallet (EVMChainProvider.as_provider this) recipient wallet e
        = ({| world := w1; journal := journal e |},
           Ok {| hash := None; successful := false; reason := Some "wallet balance is 0" |}))
     /\
     (0 < balance ->
      forall w2 data fee,
        evm_getFeeData (EVMChainProvider.provider this) w1 = (w2, Ok data) ->
        evm_fee this data = Some fee ->
        balance - fee <= 0 ->
        drainWallet (EVMChainProvider.as_provider this) recipient wallet e
        = ({| world := w2; journal := journal e |},
           Ok {| hash := None; successful := false; reason := Some fee_reason |})))
  /\
  (forall (this : SolanaChainProvider.t W) recipient wallet (e : Env W) sender w1 balance,
     sol_fromSecretKey (SolanaChainProvider.connection this) (privateKey wallet) = Ok sender ->
     sol_getBalance (SolanaChainProvider.connection this) sender (world e)
       = (w1, Ok balance) ->
     (balance = 0 ->
        drainWallet (SolanaChainProvider.as_provider this) recipient wallet e
        = ({| world := w1; journal := journal e |},
           Ok {| hash := None; successful := false; reason := Some "wallet balance is 0" |}))
     /\
     (0 < balance ->
      balance - SolanaChainProvider.estimatedMinimumFee this <= 0 ->
      drainWallet (SolanaChainProvider.as_provider this) recipient wallet e
      = ({| world := w1; journal := journal e |},
         Ok {| hash := None; successful := false; reason := Some fee_reason |})))
  /\
  includes fee_reason "insufficient balance to cover the transfer fee" = true /\
  includes fee_reason "insufficient balance" = true /\
  includes "wallet balance is 0" "balance is 0" = true.
Proof.
  split; [|split; [|repeat split]].
  - intros this recipient wallet e sender w1 balance Hkey Hbal. split.
    + intros ->. apply (evm_drain_zero this recipient wallet e sender w1 0 Hkey Hbal). lia.
    + intros Hpos w2 data fee Hdata Hfee Hdust.
      apply (evm_drain_dust this recipient wallet e sender w1 w2 balance data fee);
        assumption.
  - intros this recipient wallet e sender w1 balance Hkey Hbal. split.
    + intros ->. apply (solana_drain_zero this recipient wallet e sender w1 0 Hkey Hbal). lia.
    + intros Hpos Hdust.
      apply (solana_drain_dust this recipient wallet e sender w1 balance); assumption.
Qed.

(** C3, instances: an empty wallet and a wallet holding less than the fee, on
    each family. *)
Lemma drainWallet_soft_failures_witness :
  let table := [("addr-k0", 0); ("addr-k1", 100)] in
  let gas := {| gasPrice := Some 2; maxFeePerGas := None; maxPriorityFeePerGas := None |} in
  let e := Script.start table gas in
  let empty := Script.wallet_ "k0" "addr-k0" "wallet-0" in
  let dust := Script.wallet_ "k1" "addr-k1" "wallet-1" in
  drainWallet (EVMChainProvider.as_provider script_evm) (Some "addr-evm-funder-key") empty e
    = (e, Ok (soft_failure "wallet balance is 0")) /\
  drainWallet (EVMChainProvider.as_provider script_evm) (Some "addr-evm-funder-key") dust e
    = (e, Ok (soft_failure fee_reason)) /\
  drainWallet (SolanaChainProvider.as_provider script_solana) (Some "addr-sol-funder-key") empty e
    = (e, Ok (soft_failure "wallet balance is 0")) /\
  drainWallet (SolanaChainProvider.as_provider script_solana) (Some "addr-sol-funder-key") dust e
    = (e, Ok (soft_failure fee_reason)).
Proof.
  intros table gas e empty dust.
  destruct (@drainWallet_soft_failures Script.World) as (Hevm & Hsol & _).
  split; [|split; [|split]].
  - apply (proj1 (Hevm script_evm (Some "addr-evm-funder-key") empty e "addr-k0"
                    (world e) 0 eq_refl eq_refl)).
    reflexivity.
  - apply (proj2 (Hevm script_evm (Some "addr-evm-funder-key") dust e "addr-k1"
                    (world e) 100 eq_refl eq_refl) ltac:(lia) (world e) gas 42000);
      [reflexivity | reflexivity | lia].
  - apply (proj1 (Hsol script_solana (Some "addr-sol-funder-key") empty e "addr-k0"
                    (world e) 0 eq_refl eq_refl)).
    reflexivity.
  - apply (proj2 (Hsol script_solana (Some "addr-sol-funder-key") dust e "addr-k1"
                    (world e) 100 eq_refl eq_refl)); simpl; lia.
Defined.

End DrainClaim.

(** ** The handlers *)

Section Balances.
Context {St W : Type}.
Import GetBalancesHandler.

Lemma call_getBalance_spec (provider : ChainProvider W) address (s : Sys St W) :
  exists e' r,
    getBalance provider address (env s) = (e', r) /\
    call_getBalance provider address s
    = ({| store := store s; env := e'; calls := calls s ++ [Called_getBalance address r] |}, r).
Proof.
  unfold call_getBalance, on_env.
  destruct (getBalance provider address (env s)) as [e' r].
  exists e', r. split; reflexivity.
Qed.



End Balances.

Section BalancesExample.
Import GetBalancesHandler.


End BalancesExample.

Section Create.
Context {W : Type}.
Import CreateWalletsHandler.




End Create.

Section CreateExample.
Import CreateWalletsHandler.




End CreateExample.

Section Fund.
Context {St W : Type}.
Import FundWalletsHandler.


(** The pre-check: with fewer units at the funder than
    [in_chain_units chain amount] times the number of wallets, the handler
    throws after the one balance query, having called [fundWallet] for
    nobody. *)
Lemma fund_precheck_blocks (factory : ChainProviderFactory W) (walletStore : WalletStore St)
    (request : Request) (s : Sys St W) (provider : ChainProvider W) (st1 : St)
    (wallets : list Wallet) (perWallet balance : Z) (e1 : Env W) :
  factory (chain request) = Ok provider ->
  store_getWallets walletStore (chain request) (store s) = (st1, Ok wallets) ->
  in_chain_units (chain request) (amount request) = Ok perWallet ->
  getBalance provider (publicKey (getFunderWallet provider)) (env s) = (e1, Ok balance) ->
  balance < perWallet * Z.of_nat (length wallets) ->
  exists msg,
    handle factory walletStore request s
    = ({| store := st1; env := e1;
          calls := calls s ++ [Called_getBalance (publicKey (getFunderWallet provider))
                                 (Ok balance)] |},
       Throw (Error msg)).
Proof.
  intros Hfactory Hwallets Hunits Hbalance Hshort.
  unfold handle, bind, lift_result, on_store, call_getBalance, on_env.
  rewrite Hfactory, Hwallets, Hunits. simpl. rewrite Hbalance. simpl.
  destruct (Z.ltb_spec balance (perWallet * Z.of_nat (length wallets))); [|lia].
  eexists. reflexivity.
Qed.


End Fund.

Section FundExamples.
Import FundWalletsHandler.

(** C2 on a Solana chain that is not named "solana": the funder holds 5 SOL
    and one wallet is to receive 1 SOL, that is 10^9 lamports; the handler
    works the requirement out as 10^18, the wei of 1 ETH, and throws. *)
Theorem fund_precheck_unit_by_name :
  let wallet := Script.wallet_ "k0" "a0" "wallet-0" in
  let table := [("addr-sol-funder-key", 5000000000); ("a0", 0)] in
  let s := Script.boot (opened {[ "solana-devnet" := JsonStore.JArray [wallet] ]})
             (Script.start table Script.no_fees) in
  let request := {| chain := "solana-devnet"; amount := 1; minBalance := 1 |} in
  Script.factory "solana-devnet" = Ok (SolanaChainProvider.as_provider script_solana) /\
  BigInt_floor (amount request * LAMPORTS_PER_SOL)%float = Ok 1000000000 /\
  1000000000 * 1 <= 5000000000 /\
  in_chain_units (chain request) (amount request) = Ok 1000000000000000000 /\
  handle Script.factory JsonStore.as_store request s
  = ({| store := store s; env := env s;
        calls := [Called_getBalance (Some "addr-sol-funder-key") (Ok 5000000000)] |},
     Throw (Error ("Funder addr-sol-funder-key balance of 5000000000 is less than the "
                   +:+ "required funding amount of 1000000000000000000"))).
Proof.
  intros wallet table s request.
  split; [reflexivity|]. split; [reflexivity|]. split; [lia|]. split; [reflexivity|].
  vm_compute. reflexivity.
Qed.

(** C8 on the same chain: with a threshold of one lamport (1e-9 SOL) a wallet
    that holds 5 lamports is at or above it, and is funded all the same,
    because the handler compares the 5 with 10^9. *)
Theorem fund_threshold_unit_by_name :
  let wallet := Script.wallet_ "k0" "a0" "wallet-0" in
  let funder := Script.wallet_ "sol-funder-key" "addr-sol-funder-key" "solana-funder" in
  let table := [("addr-sol-funder-key", 2000000000); ("a0", 5)] in
  let s := Script.boot (opened {[ "solana-devnet" := JsonStore.JArray [wallet] ]})
             (Script.start table Script.no_fees) in
  let request := {| chain := "solana-devnet"; amount := one_lamport;
                    minBalance := one_lamport |} in
  Script.factory "solana-devnet" = Ok (SolanaChainProvider.as_provider script_solana) /\
  BigInt_floor (minBalance request * LAMPORTS_PER_SOL)%float = Ok 1 /\
  1 <= 5 /\
  in_chain_units (chain request) (minBalance request) = Ok 1000000000 /\
  exists s',
    handle Script.factory JsonStore.as_store request s
    = (s', Ok {| fundedCount := 1; skippedCount := 0 |}) /\
    calls s' = [ Called_getBalance (Some "addr-sol-funder-key") (Ok 2000000000);
                 Called_getBalance (Some "a0") (Ok 5);
                 Called_fundWallet one_lamport funder (Some "a0") ].
Proof.
  intros wallet funder table s request.
  split; [reflexivity|]. split; [reflexivity|]. split; [lia|]. split; [reflexivity|].
  eexists. split; [vm_compute; reflexivity | reflexivity].
Qed.

(** On the chain named "solana" itself the same request skips the wallet. *)
Lemma fund_threshold_named_solana :
  let wallet := Script.wallet_ "k0" "a0" "wallet-0" in
  let table := [("addr-sol-funder-key", 2000000000); ("a0", 5)] in
  let s := Script.boot (opened {[ "solana" := JsonStore.JArray [wallet] ]})
             (Script.start table Script.no_fees) in
  let request := {| chain := "solana"; amount := one_lamport; minBalance := one_lamport |} in
  exists s',
    handle Script.factory JsonStore.as_store request s
    = (s', Ok {| fundedCount := 0; skippedCount := 1 |}) /\
    calls s' = [ Called_getBalance (Some "addr-sol-funder-key") (Ok 2000000000);
                 Called_getBalance (Some "a0") (Ok 5) ].
Proof.
  intros wallet table s request.
  eexists. split; [vm_compute; reflexivity | reflexivity].
Qed.

End FundExamples.

Section DrainBatches.
Import DrainWalletsHandler.

Variable settles : nat -> Wallet -> Result TransactionResult.
Variable pick : list nat -> nat.

Lemma settle_all_spec : forall n inflight c trace,
  length inflight = n ->
  exists c' ext,
    settle_all settles pick n inflight c trace = (c', trace ++ ext) /\
    settled_of ext ≡ₚ inflight.*1 /\
    batches_of ext = [] /\ issued_of ext = [].
Proof.
  induction n as [|n IH]; intros inflight c trace Hlen.
  - destruct inflight; [|discriminate]. exists c, []. simpl.
    rewrite app_nil_r. split; [reflexivity|]. split; [constructor|]. split; reflexivity.
  - simpl settle_all.
    set (k := (pick inflight.*1 `mod` length inflight)%nat).
    assert (Hk : (k < length inflight)%nat).
    { unfold k. apply Nat.mod_upper_bound. lia. }
    destruct (lookup_lt_is_Some_2 inflight k Hk) as [[i wallet] Hlook].
    rewrite Hlook.
    destruct (IH (delete k inflight) (on_settled (settles i wallet) c)
                (trace ++ [Settled i (settles i wallet)])) as (c' & ext & Hrun & Hperm & Hb & Hi).
    { rewrite length_delete by eauto. lia. }
    exists c', (Settled i (settles i wallet) :: ext). rewrite Hrun.
    split; [rewrite <- app_assoc; reflexivity|]. split; [|split].
    + pose proof (delete_Permutation inflight k (i, wallet) Hlook) as Hd.
      apply (fmap_Permutation fst) in Hd. simpl in Hd.
      etrans; [|symmetry; exact Hd].
      unfold settled_of in *. simpl. constructor. exact Hperm.
    + exact Hb.
    + exact Hi.
Qed.

Lemma batch_of_in m j : (20 * m <= j -> j < 20 * m + 20 -> batch_of j = m)%nat.
Proof.
  intros H1 H2. unfold batch_of, concurrencyLimit.
  assert (j / 20 < S m)%nat by (apply Nat.Div0.div_lt_upper_bound; lia).
  assert (m <= j / 20)%nat by (apply Nat.div_le_lower_bound; lia).
  lia.
Qed.

Lemma batch_of_ge m j : (20 * m <= j -> m <= batch_of j)%nat.
Proof.
  intros H. unfold batch_of, concurrencyLimit. apply Nat.div_le_lower_bound; lia.
Qed.

Lemma total_batches_gt m n : (20 * m < n -> m < total_batches n)%nat.
Proof.
  intros H. unfold total_batches, concurrencyLimit.
  assert (S m <= (n + 20 - 1) / 20)%nat by (apply Nat.div_le_lower_bound; lia).
  lia.
Qed.

Lemma total_batches_le m n : (n <= 20 * m -> total_batches n <= m)%nat.
Proof.
  intros H. unfold total_batches, concurrencyLimit.
  assert ((n + 20 - 1) / 20 < S m)%nat by (apply Nat.Div0.div_lt_upper_bound; lia).
  lia.
Qed.

Lemma calls_indices (l : list Wallet) : forall i,
  (imap (fun k wallet => ((i + k)%nat, wallet)) l).*1 = seq i (length l).
Proof.
  induction l as [|w l IH]; intros i; simpl; [reflexivity|].
  f_equal; [lia|]. rewrite <- (IH (S i)). f_equal.
  apply imap_ext. intros k x _. simpl. f_equal. lia.
Qed.

Lemma calls_wallets (l : list Wallet) : forall i,
  (imap (fun k wallet => ((i + k)%nat, wallet)) l).*2 = l.
Proof.
  induction l as [|w l IH]; intros i; simpl; [reflexivity|].
  f_equal. rewrite <- (IH (S i)) at 2. f_equal.
  apply imap_ext. intros k x _. simpl. f_equal. lia.
Qed.

Lemma issues_only (calls_ : list (nat * Wallet)) :
  batches_of (map issue calls_) = [] /\ issued_of (map issue calls_) = calls_ /\
  settled_of (map issue calls_) = [].
Proof.
  induction calls_ as [|[k w] l (IH1 & IH2 & IH3)]; [repeat split|].
  unfold batches_of, issued_of, settled_of in *. simpl.
  split; [exact IH1|]. split; [f_equal; exact IH2 | exact IH3].
Qed.

Lemma batches_of_app a b : batches_of (a ++ b) = batches_of a ++ batches_of b.
Proof. apply omap_app. Qed.
Lemma issued_of_app a b : issued_of (a ++ b) = issued_of a ++ issued_of b.
Proof. apply omap_app. Qed.
Lemma settled_of_app a b : settled_of (a ++ b) = settled_of a ++ settled_of b.
Proof. apply omap_app. Qed.

Lemma settled_position (ext : list DrainEvent) (i : nat) :
  i ∈ settled_of ext -> exists q o, ext !! q = Some (Settled i o).
Proof.
  intros Hin. apply list_elem_of_omap in Hin as (ev & Hev & Hidx).
  destruct ev; try discriminate. injection Hidx as ->.
  apply list_elem_of_lookup in Hev as [q Hq]. eauto.
Qed.

Lemma issued_member (ext : list DrainEvent) p j w :
  ext !! p = Some (Issued j w) -> (j, w) ∈ issued_of ext.
Proof.
  intros Hp. apply list_elem_of_omap. exists (Issued j w).
  split; [apply list_elem_of_lookup; eauto | reflexivity].
Qed.

Lemma rounds_done wallets m :
  (length wallets <= 20 * m)%nat -> rounds_from wallets m [].
Proof.
  intros Hn.
  assert (Hseq : (length wallets - 20 * m = 0)%nat) by lia.
  pose proof (total_batches_le m _ Hn) as Ht.
  assert (Hseq' : (total_batches (length wallets) - m = 0)%nat) by lia.
  split.
  - rewrite Hseq'. reflexivity.
  - rewrite drop_ge by lia. reflexivity.
  - rewrite Hseq. reflexivity.
  - rewrite drop_ge by lia. reflexivity.
  - rewrite Hseq. reflexivity.
  - intros p j w Hp. discriminate.
Qed.

Lemma drain_loop_round fuel wallets i c trace :
  drain_loop settles pick (S fuel) wallets i c trace =
    if bool_decide (i < length wallets)%nat then
      let batch := slice wallets i (i + concurrencyLimit) in
      let batchNumber := (i / concurrencyLimit + 1)%nat in
      let totalBatches := ((length wallets + concurrencyLimit - 1) / concurrencyLimit)%nat in
      let calls_ := imap (fun k wallet => ((i + k)%nat, wallet)) batch in
      let trace1 := trace ++ [Batch_started batchNumber totalBatches batch]
                    ++ map (fun '(k, wallet) => Issued k wallet) calls_ in
      let '(c', trace2) := settle_all settles pick (length calls_) calls_ c trace1 in
      drain_loop settles pick fuel wallets (i + concurrencyLimit)%nat c'
        (trace2 ++ [Batch_completed batchNumber])
    else (c, trace).
Proof. reflexivity. Qed.

Lemma drain_loop_spec wallets : forall fuel m i c trace,
  i = (20 * m)%nat ->
  (length wallets <= i + 20 * fuel)%nat ->
  exists c' ext,
    drain_loop settles pick fuel wallets i c trace = (c', trace ++ ext) /\
    rounds_from wallets m ext.
Proof.
  induction fuel as [|fuel IH]; intros m i c trace Hi Hfuel.
  - exists c, []. simpl. rewrite app_nil_r. split; [reflexivity|].
    apply rounds_done. lia.
  - rewrite drain_loop_round. case_bool_decide as Hlt.
    2:{ exists c, []. rewrite app_nil_r. split; [reflexivity|]. apply rounds_done. lia. }
    cbv zeta.
    set (batch := slice wallets i (i + concurrencyLimit)).
    set (calls_ := imap (fun k wallet => ((i + k)%nat, wallet)) batch).
    set (bn := (i / concurrencyLimit + 1)%nat).
    set (tot := ((length wallets + concurrencyLimit - 1) / concurrencyLimit)%nat).
    assert (Hissue : map (fun '(k, wallet) => Issued k wallet) calls_ = map issue calls_).
    { apply map_ext. intros [k w]. reflexivity. }
    rewrite Hissue.
    destruct (settle_all_spec (length calls_) calls_ c
                (trace ++ [Batch_started bn tot batch] ++ map issue calls_) eq_refl)
      as (c1 & ext_s & Hsettle & Hperm & Hsb & Hsi).
    rewrite Hsettle.
    destruct (IH (S m) (i + concurrencyLimit)%nat c1
                (((trace ++ [Batch_started bn tot batch] ++ map issue calls_) ++ ext_s)
                 ++ [Batch_completed bn]))
      as (c' & ext_r & Hrun & Hrest);
      [unfold concurrencyLimit; lia | unfold concurrencyLimit; lia |].
    rewrite Hrun.
    set (seg := [Batch_started bn tot batch] ++ map issue calls_ ++ ext_s
                ++ [Batch_completed bn]).
    exists c', (seg ++ ext_r). split.
    { unfold seg. rewrite <- !app_assoc. reflexivity. }
    (* the segment of this round *)
    assert (Hbatch : batch = expected_batch wallets m).
    { unfold batch, slice, expected_batch, concurrencyLimit. subst i. f_equal. lia. }
    assert (Hblen : length batch = (20 `min` (length wallets - i))%nat).
    { rewrite Hbatch. unfold expected_batch, concurrencyLimit.
      rewrite length_take, length_drop, Hi. reflexivity. }
    destruct (issues_only calls_) as (Hib & Hii & His).
    assert (Hseg_b : batches_of seg = [batch]).
    { unfold seg. rewrite !batches_of_app, Hib, Hsb. reflexivity. }
    assert (Hseg_i : issued_of seg = calls_).
    { unfold seg. rewrite !issued_of_app, Hii, Hsi. simpl. apply app_nil_r. }
    assert (Hseg_s : settled_of seg ≡ₚ seq i (length batch)).
    { unfold seg. rewrite !settled_of_app, His. simpl.
      rewrite app_nil_r, Hperm. unfold calls_. rewrite calls_indices. reflexivity. }
    assert (Hsplit : seq i (length batch) ++ seq (20 * S m) (length wallets - 20 * S m)
                     = seq i (length wallets - i)).
    { rewrite Hblen. destruct (Nat.le_ge_cases 20 (length wallets - i)) as [Hbig|Hsmall].
      - rewrite Nat.min_l by exact Hbig.
        replace (length wallets - i)%nat with (20 + (length wallets - 20 * S m))%nat
          by lia.
        rewrite seq_app. f_equal. f_equal. lia.
      - rewrite Nat.min_r by exact Hsmall.
        replace (length wallets - 20 * S m)%nat with 0%nat by lia.
        simpl. apply app_nil_r. }
    destruct Hrest as [Rb Rc Ria Ri Rs Ro].
    split.
    + rewrite batches_of_app, Hseg_b, Rb.
      pose proof (total_batches_gt m (length wallets) ltac:(lia)) as Hm.
      replace (total_batches (length wallets) - m)%nat
        with (S (total_batches (length wallets) - S m)) by lia.
      simpl. rewrite Hbatch. reflexivity.
    + rewrite batches_of_app, Hseg_b. simpl. rewrite Rc.
      rewrite Hbatch. unfold expected_batch, concurrencyLimit.
      replace (20 * S m)%nat with (20 * m + 20)%nat by lia.
      rewrite <- drop_drop. apply take_drop.
    + rewrite issued_of_app, fmap_app, Hseg_i, Ria.
      unfold calls_. rewrite calls_indices. rewrite <- Hi. exact Hsplit.
    + rewrite issued_of_app, fmap_app, Hseg_i, Ri.
      unfold calls_. rewrite calls_wallets.
      rewrite Hbatch. unfold expected_batch, concurrencyLimit.
      replace (20 * S m)%nat with (20 * m + 20)%nat by lia.
      rewrite <- drop_drop. apply take_drop.
    + rewrite settled_of_app, Hseg_s, Rs. rewrite Hsplit, Hi. reflexivity.
    + intros p j w Hp i' Hi1 Hi2 Hb.
      apply lookup_app_Some in Hp as [Hp | [Hlen Hp]].
      * exfalso. apply issued_member in Hp. rewrite Hseg_i in Hp.
        assert (Hj : j ∈ calls_.*1).
        { apply list_elem_of_fmap. exists (j, w). split; [reflexivity | exact Hp]. }
        unfold calls_ in Hj. rewrite calls_indices in Hj. apply elem_of_seq in Hj.
        assert (batch_of j = m) as Hjm by (apply batch_of_in; lia).
        pose proof (batch_of_ge m i' Hi1). lia.
      * destruct (Nat.le_gt_cases (20 * S m) i') as [Hnext | Hthis].
        -- destruct (Ro _ _ _ Hp i' Hnext Hi2 Hb) as (q & o & Hq & Hlook).
           exists (length seg + q)%nat, o. split; [lia|].
           rewrite lookup_app_r by lia.
           replace (length seg + q - length seg)%nat with q by lia. exact Hlook.
        -- assert (Hin : i' ∈ settled_of seg).
           { rewrite Hseg_s. apply elem_of_seq. rewrite Hblen. lia. }
           apply settled_position in Hin as (q & o & Hq).
           exists q, o. pose proof (lookup_lt_Some _ _ _ Hq).
           split; [lia|]. rewrite lookup_app_l by lia. exact Hq.
Qed.

End DrainBatches.

Section DrainClaimBatches.
Context {St W : Type}.
Import DrainWalletsHandler.

(** C5: the drain handler cuts the registry list into consecutive runs of
    20 wallets, in registry order, the last one possibly shorter; it issues
    the calls of a batch in registry order, every call settles exactly once,
    and, whatever the calls settle to and in whichever order they do, a call
    for a wallet of a later batch is only issued after the calls for all
    wallets of the earlier batches have settled. *)
Theorem drain_batching (factory : ChainProviderFactory W) (walletStore : WalletStore St)
    (settles : nat -> Wallet -> Result TransactionResult) (pick : list nat -> nat)
    (request : Request) (s : Sys St W) (provider : ChainProvider W)
    (st1 : St) (wallets : list Wallet) :
  factory (chain request) = Ok provider ->
  store_getWallets walletStore (chain request) (store s) = (st1, Ok wallets) ->
  exists s' report trace,
    handle factory walletStore settles pick request s = (s', Ok (report, trace)) /\
    batches_of trace
      = map (expected_batch wallets) (seq 0 (total_batches (length wallets))) /\
    concat (batches_of trace) = wallets /\
    (issued_of trace).*1 = seq 0 (length wallets) /\
    (issued_of trace).*2 = wallets /\
    settled_of trace ≡ₚ seq 0 (length wallets) /\
    (forall p j w, trace !! p = Some (Issued j w) ->
     forall i, (i < length wallets)%nat -> (batch_of i < batch_of j)%nat ->
     exists q o, (q < p)%nat /\ trace !! q = Some (Settled i o)).
Proof.
  intros Hfactory Hwallets.
  unfold handle, bind, lift_result, on_store, ret. rewrite Hfactory, Hwallets.
  match goal with |- context [drain_loop settles pick ?f wallets 0 ?c []] =>
    destruct (drain_loop_spec settles pick wallets f 0 0 c [] eq_refl ltac:(lia))
      as (c' & ext & Hrun & [Rb Rc Ria Ri Rs Ro]) end.
  rewrite Hrun. simpl app.
  eexists _, c', ext. split; [reflexivity|].
  rewrite Nat.sub_0_r in *. simpl in *.
  repeat split; try assumption.
  intros p j w Hp i Hi Hb. apply (Ro p j w Hp i); [lia | exact Hi | exact Hb].
Qed.

End DrainClaimBatches.

Section DrainExample.
Import DrainWalletsHandler.

(** C5, instance: 45 wallets make 3 batches, of 20, 20 and 5 wallets, the
    calls settling last-issued first. *)
Lemma drain_batching_witness :
  let wallets := map numbered_wallet (seq 0 45) in
  let s := Script.boot (opened {[ "avalanche" := JsonStore.JArray wallets ]})
             (Script.start [] Script.no_fees) in
  let settles := fun (_ : nat) (_ : Wallet) => Ok (soft_failure "wallet balance is 0") in
  let pick := fun inflight : list nat => (length inflight - 1)%nat in
  exists s' report trace,
    handle Script.factory JsonStore.as_store settles pick {| chain := "avalanche" |} s
      = (s', Ok (report, trace)) /\
    length <$> batches_of trace = [20; 20; 5]%nat /\
    concat (batches_of trace) = wallets.
Proof.
  intros wallets s settles pick.
  destruct (drain_batching Script.factory JsonStore.as_store settles pick
              {| chain := "avalanche" |} s (EVMChainProvider.as_provider script_evm)
              (store s) wallets eq_refl eq_refl)
    as (s' & report & trace & Hrun & Hb & Hc & _).
  exists s', report, trace. split; [exact Hrun|]. split; [|exact Hc].
  rewrite Hb. vm_compute. reflexivity.
Defined.

End DrainExample.

(** * Further properties of the code *)

(** ** The registry, beyond the claims *)

Section RegistryAlgebra.
Import JsonStore.











End RegistryAlgebra.

Section RegistryBatches.
Import JsonStore.









End RegistryBatches.

Section RegistryIdempotence.
Import JsonStore.













End RegistryIdempotence.

Section RegistryReads.
Import JsonStore.

Lemma getWallets_contents chain s : contents (getWallets chain s).1 = contents s.
Proof.
  destruct (decide (chain = "")) as [->|Hc]; [reflexivity|].
  rewrite getWallets_spec by exact Hc.
  destruct (contents s) as [data|] eqn:Hd; [reflexivity | exact Hd].
Qed.

(** X5: reads do not disturb one another: what [getWallets] and [count]
    return for a chain is the same after a read of any chain as before it,
    and a repeated read changes nothing more and returns the same. *)
Theorem reads_do_not_interfere (c1 c2 : string) (s : JsonStore.t) :
  (getWallets c2 (getWallets c1 s).1).2 = (getWallets c2 s).2 /\
  (count c2 (getWallets c1 s).1).2 = (count c2 s).2 /\
  getWallets c1 (getWallets c1 s).1 = getWallets c1 s.
Proof.
  assert (Hread : forall c, (getWallets c (getWallets c1 s).1).2 = (getWallets c s).2).
  { intros c. rewrite !getWallets_result, getWallets_contents. reflexivity. }
  split; [apply Hread|]. split.
  - rewrite !count_spec. pose proof (Hread c2) as H.
    destruct (getWallets c2 (getWallets c1 s).1) as [sa [la|ea]],
             (getWallets c2 s) as [sb [lb|eb]]; simpl in *; congruence.
  - destruct (decide (c1 = "")) as [->|Hc]; [reflexivity|].
    rewrite (getWallets_spec c1 s) by exact Hc.
    destruct (contents s) as [data|] eqn:Hd; simpl.
    + rewrite getWallets_spec by exact Hc. reflexivity.
    + rewrite getWallets_spec by exact Hc. rewrite Hd. reflexivity.
Qed.

(** X6: a data file that is not there. A store that has not been used yet
    creates it, holding the empty object, on its first access, which then
    sees a chain without wallets. A store that has been used does not create
    it again: every access of a named chain fails with the error of the
    read, and the file stays missing. *)
Theorem missing_file (s : JsonStore.t) (chain : string) (walletInput : WalletInput) :
  file s = Missing ->
  chain <> "" ->
  if initialized s
  then getWallets chain s = (s, Throw (SystemError "ENOENT")) /\
       count chain s = (s, Throw (SystemError "ENOENT")) /\
       (walletInput <> Undefined ->
        add chain walletInput s = (s, Throw (SystemError "ENOENT")))
  else getWallets chain s = (opened ∅, Ok []) /\
       count chain s = (opened ∅, Ok 0%nat) /\
       (walletInput <> Undefined ->
        add chain walletInput s = add chain walletInput (opened ∅)).
Proof.
  intros Hfile Hc. destruct s as [init f]. simpl in Hfile. subst f.
  destruct init; simpl.
  - split; [|split].
    + rewrite getWallets_spec by exact Hc. reflexivity.
    + rewrite count_spec, getWallets_spec by exact Hc. reflexivity.
    + intros Hi. rewrite add_spec by assumption. reflexivity.
  - split; [|split].
    + rewrite getWallets_spec by exact Hc. reflexivity.
    + rewrite count_spec, getWallets_spec by exact Hc. reflexivity.
    + intros Hi. rewrite !add_spec by assumption. reflexivity.
Qed.

Lemma missing_file_witness :
  let w := Script.wallet_ "k1" "A" "wallet-0" in
  let fresh := {| initialized := false; file := Missing |} in
  let used := {| initialized := true; file := Missing |} in
  (getWallets "avalanche" fresh = (opened ∅, Ok []) /\
   add "avalanche" (Single w) fresh
   = (opened {[ "avalanche" := JArray [w] ]}, Ok (Some (count_new no_counts)))) /\
  (getWallets "avalanche" used = (used, Throw (SystemError "ENOENT")) /\
   add "avalanche" (Single w) used = (used, Throw (SystemError "ENOENT"))).
Proof.
  intros w fresh used. split.
  - destruct (missing_file fresh "avalanche" (Single w)) as (Hget & _ & Hadd);
      [reflexivity | discriminate |].
    split; [exact Hget|]. rewrite Hadd by discriminate. reflexivity.
  - destruct (missing_file used "avalanche" (Single w)) as (Hget & _ & Hadd);
      [reflexivity | discriminate |].
    split; [exact Hget|]. apply Hadd. discriminate.
Defined.

End RegistryReads.

(** ** The providers, beyond the claims *)

Section ProviderTransfers.
Context {W : Type}.

Lemma journal_grew (l : list Sent) x : l ++ [x] <> l.
Proof.
  intros H. apply (f_equal length) in H. rewrite length_app in H. simpl in H. lia.
Qed.

(** X7: whatever the node and the key library answer, [drainWallet] of the
    EVM provider hands at most one transfer to the network, to the given
    recipient and of a positive amount; it reports success only after
    handing one over, and then with the hash of the transaction; when it
    returns an unsuccessful result without having handed one over, the
    reason is one of the two texts the drain handler counts. *)
Theorem evm_drain_transfers (this : EVMChainProvider.t W) (recipient : option string)
    (wallet : Wallet) (e : Env W) :
  let out := drainWallet (EVMChainProvider.as_provider this) recipient wallet e in
  (journal out.1 = journal e \/
   exists sender v, journal out.1 = journal e ++ [Submitted sender recipient (Wei v)] /\ 0 < v) /\
  (forall result, out.2 = Ok result -> successful result = true ->
     journal out.1 <> journal e /\ is_Some (hash result)) /\
  (forall result, out.2 = Ok result -> successful result = false ->
     journal out.1 = journal e ->
     reason result = Some zero_balance_reason \/ reason result = Some fee_reason).
Proof.
  simpl.
  unfold EVMChainProvider.drainWallet, rethrowing, try_catch, bind, lift_result, rpc, emit,
    ret, throw.
  repeat case_match; simplify_eq/=.
  all: split; [|split].
  all: try (intros result [= <-]; simpl; intros Hs; try discriminate).
  all: try (intros result [=]).
  all: try (left; reflexivity).
  all: try (right; eexists _, _; split; [reflexivity|];
            match goal with H : (_ <=? 0) = false |- _ => apply Z.leb_gt in H; exact H end).
  all: try (split; [apply journal_grew | eauto]).
  all: try (intros _; left; reflexivity).
  all: try (intros _; right; reflexivity).
  all: try (intros Hj; exfalso; exact (journal_grew _ _ Hj)).
Qed.

(** X8: the same for the Solana provider: at most one transfer, of a
    positive whole number of lamports; success only after a transfer was
    handed over; an unsuccessful result without one carries one of the two
    reasons. *)
Theorem solana_drain_transfers (this : SolanaChainProvider.t W) (recipient : option string)
    (wallet : Wallet) (e : Env W) :
  let out := drainWallet (SolanaChainProvider.as_provider this) recipient wallet e in
  (journal out.1 = journal e \/
   exists sender to v,
     sol_PublicKey (SolanaChainProvider.connection this) recipient = Ok to /\
     journal out.1 = journal e ++ [Submitted sender (Some to) (Lamports v)] /\ 0 < v) /\
  (forall result, out.2 = Ok result -> successful result = true ->
     journal out.1 <> journal e /\ is_Some (hash result)) /\
  (forall result, out.2 = Ok result -> successful result = false ->
     journal out.1 = journal e ->
     reason result = Some zero_balance_reason \/ reason result = Some fee_reason).
Proof.
  simpl.
  unfold SolanaChainProvider.drainWallet, rethrowing, try_catch, bind, lift_result, rpc, emit,
    ret, throw.
  repeat case_match; simplify_eq/=.
  all: split; [|split].
  all: try (intros result [= <-]; simpl; intros Hs; try discriminate).
  all: try (intros result [=]).
  all: try (left; reflexivity).
  all: try (right; eexists _, _, _; split; [reflexivity|]; split; [reflexivity|];
            repeat match goal with H : (_ <=? _) = false |- _ => apply Z.leb_gt in H end; lia).
  all: try (split; [apply journal_grew | eauto]).
  all: try (intros _; left; reflexivity).
  all: try (intros _; right; reflexivity).
  all: try (intros Hj; exfalso; exact (journal_grew _ _ Hj)).
Qed.

End ProviderTransfers.

Section ProviderPaths.
Context {W : Type}.

(** X9: on an EVM chain whose fee data has neither a maximum fee per gas nor
    a gas price (each [null] or [0n]), draining a wallet with a positive
    balance throws "Could not determine gas price", and no transfer is
    handed to the network. *)
Theorem evm_drain_needs_gas_price (this : EVMChainProvider.t W) (recipient : option string)
    (wallet : Wallet) (e : Env W) (sender : string) (w1 w2 : W) (balance : Z)
    (data : FeeData) :
  evm_wallet (EVMChainProvider.provider this) (privateKey wallet) = Ok sender ->
  evm_getBalance (EVMChainProvider.provider this) (Some sender) (world e) = (w1, Ok balance) ->
  0 < balance ->
  evm_getFeeData (EVMChainProvider.provider this) w1 = (w2, Ok data) ->
  maxFeePerGas data = None \/ maxFeePerGas data = Some 0 ->
  gasPrice data = None \/ gasPrice data = Some 0 ->
  drainWallet (EVMChainProvider.as_provider this) recipient wallet e
  = ({| world := w2; journal := journal e |}, Throw (Error "Could not determine gas price")).
Proof.
  intros Hkey Hbal Hpos Hdata Hmax Hprice. simpl.
  unfold EVMChainProvider.drainWallet, rethrowing, try_catch, bind, lift_result, rpc.
  rewrite Hkey, Hbal.
  destruct (Z.leb_spec balance 0); [lia|]. simpl. rewrite Hdata. simpl.
  destruct Hmax as [-> | ->], Hprice as [-> | ->]; reflexivity.
Qed.


(** X11: [fundWallet] of the EVM provider hands at most one transfer to the
    network, of [BigInt(Math.floor(amount * 1e18))] wei; an amount for which
    that conversion raises (NaN, an infinity) makes it throw the RangeError
    with nothing handed over; and whenever it returns a result, a transfer
    was handed over and the result carries the transaction hash and no
    reason. *)
Theorem evm_fundWallet_transfers (this : EVMChainProvider.t W) (amount : float)
    (funder_ : Wallet) (recipient : option string) (e : Env W) :
  let out := fundWallet (EVMChainProvider.as_provider this) amount funder_ recipient e in
  (journal out.1 = journal e \/
   exists sender v,
     BigInt_floor (amount * 1e18)%float = Ok v /\
     journal out.1 = journal e ++ [Submitted sender recipient (Wei v)]) /\
  (forall sender err,
     evm_wallet (EVMChainProvider.provider this) (privateKey funder_) = Ok sender ->
     BigInt_floor (amount * 1e18)%float = Throw err -> out = (e, Throw err)) /\
  (forall result, out.2 = Ok result ->
     journal out.1 <> journal e /\ is_Some (hash result) /\ reason result = None).
Proof.
  simpl.
  unfold EVMChainProvider.fundWallet, rethrowing, try_catch, bind, lift_result, rpc, emit,
    ret, throw.
  repeat case_match; simplify_eq/=.
  all: split; [|split].
  all: try solve [intros sender err' _ [= <-]; reflexivity].
  all: try solve [intros sender err' [=]].
  all: try solve [intros sender err' _ [=]].
  all: try (intros result [= <-]; simpl; split; [apply journal_grew | split; eauto]).
  all: try (intros result [=]).
  all: try (left; reflexivity).
  all: try (right; eexists _, _; split; reflexivity).
Qed.


End ProviderPaths.

Lemma evm_drain_needs_gas_price_witness :
  let e := Script.start [("addr-k1", 100)] Script.no_fees in
  let wallet := Script.wallet_ "k1" "addr-k1" "wallet-1" in
  drainWallet (EVMChainProvider.as_provider script_evm) (Some "addr-evm-funder-key") wallet e
  = (e, Throw (Error "Could not determine gas price")).
Proof.
  intros e wallet.
  apply (evm_drain_needs_gas_price script_evm (Some "addr-evm-funder-key") wallet e
           "addr-k1" (world e) (world e) 100 Script.no_fees);
    try reflexivity; left; reflexivity.
Defined.


Lemma evm_fundWallet_transfers_witness :
  let e := Script.start [] Script.no_fees in
  let funder_ := EVMChainProvider.funder script_evm in
  fundWallet (EVMChainProvider.as_provider script_evm) nan funder_ (Some "addr-k1") e
  = (e, Throw (RangeError
                 "The number cannot be converted to a BigInt because it is not an integer")).
Proof.
  intros e funder_.
  destruct (evm_fundWallet_transfers script_evm nan funder_ (Some "addr-k1") e)
    as (_ & Hthrow & _).
  apply (Hthrow "addr-evm-funder-key"); reflexivity.
Defined.

(** ** The handlers, beyond the claims *)

Section DrainReport.
Import DrainWalletsHandler.

Variable settles : nat -> Wallet -> Result TransactionResult.
Variable pick : list nat -> nat.

Lemma on_settled_comm a b c : on_settled a (on_settled b c) = on_settled b (on_settled a c).
Proof. unfold on_settled. repeat case_match; reflexivity. Qed.

Lemma tally_settled {A} (f : A -> Result TransactionResult) o l : forall c,
  foldr (fun x => on_settled (f x)) (on_settled o c) l
  = on_settled o (foldr (fun x => on_settled (f x)) c l).
Proof.
  induction l as [|x l IH]; intros c; simpl; [reflexivity|].
  rewrite IH. apply on_settled_comm.
Qed.

Lemma tally_permutation {A} (f : A -> Result TransactionResult) c l1 l2 :
  l1 ≡ₚ l2 ->
  foldr (fun x => on_settled (f x)) c l1 = foldr (fun x => on_settled (f x)) c l2.
Proof.
  induction 1 as [|x l1 l2 _ IH|x y l|l1 l2 l3 _ IH1 _ IH2]; simpl.
  - reflexivity.
  - rewrite IH. reflexivity.
  - apply on_settled_comm.
  - congruence.
Qed.

Lemma settle_all_report : forall n inflight c trace,
  length inflight = n ->
  (settle_all settles pick n inflight c trace).1
  = foldr (fun p => on_settled (settles p.1 p.2)) c inflight.
Proof.
  induction n as [|n IH]; intros inflight c trace Hlen.
  - destruct inflight; [reflexivity | discriminate].
  - simpl settle_all.
    set (k := (pick inflight.*1 `mod` length inflight)%nat).
    assert (Hk : (k < length inflight)%nat).
    { apply Nat.mod_upper_bound. lia. }
    destruct (lookup_lt_is_Some_2 inflight k Hk) as [[i wallet] Hi].
    rewrite Hi. rewrite IH by (rewrite length_delete by eauto; lia).
    rewrite (tally_settled (fun p => settles p.1 p.2) (settles i wallet)).
    rewrite (tally_permutation (fun p => settles p.1 p.2) c inflight
               ((i, wallet) :: delete k inflight) (delete_Permutation _ _ _ Hi)).
    reflexivity.
Qed.

Lemma drain_loop_report wallets : forall fuel i c trace,
  (length wallets <= i + 20 * fuel)%nat ->
  (drain_loop settles pick fuel wallets i c trace).1
  = foldr (fun p => on_settled (settles p.1 p.2)) c
      (imap (fun k wallet => ((i + k)%nat, wallet)) (drop i wallets)).
Proof.
  induction fuel as [|fuel IH]; intros i c trace Hfuel.
  - rewrite drop_ge by lia. reflexivity.
  - rewrite drain_loop_round. case_bool_decide as Hi.
    2:{ rewrite drop_ge by lia. reflexivity. }
    cbv zeta. unfold slice, concurrencyLimit.
    replace (i + 20 - i)%nat with 20%nat by lia.
    set (batch := take 20 (drop i wallets)).
    set (calls_ := imap (fun k wallet => ((i + k)%nat, wallet)) batch).
    pose proof (settle_all_report (length calls_) calls_ c
                  (trace ++ [Batch_started (i / 20 + 1) ((length wallets + 20 - 1) / 20) batch]
                     ++ map (fun '(k, wallet) => Issued k wallet) calls_) eq_refl) as Hround.
    destruct (settle_all settles pick (length calls_) calls_ c _) as [c' trace2].
    simpl in Hround. subst c'.
    rewrite IH by lia.
    rewrite <- (take_drop 20 (drop i wallets)). fold batch.
    rewrite drop_drop, imap_app, foldr_app. fold calls_.
    rewrite <- !foldr_app. apply tally_permutation.
    etrans; [apply Permutation_app_comm|]. apply Permutation_app; [reflexivity|].
    destruct (decide (i + 20 <= length wallets)%nat) as [Hfull|Hshort].
    + assert (Hb : length batch = 20%nat).
      { unfold batch. rewrite length_take, length_drop. lia. }
      rewrite Hb. erewrite imap_ext; [reflexivity|].
      intros j w _. simpl. f_equal. lia.
    + rewrite drop_ge by lia. reflexivity.
Qed.

Lemma tally_accounts : forall (os : list (Result TransactionResult)) c,
  let r := foldr on_settled c os in
  (successCount r + failureCount r = successCount c + failureCount c + length os)%nat /\
  ((zeroBalanceCount c + insufficientBalanceCount c <= failureCount c)%nat ->
   (zeroBalanceCount r + insufficientBalanceCount r <= failureCount r)%nat).
Proof.
  induction os as [|o os IH]; intros c; cbn [foldr length]; [simpl; lia|].
  destruct (IH c) as [Hsum Hle]. cbv zeta in Hsum, Hle.
  set (r' := foldr on_settled c os) in *. clearbody r'.
  split; [|intros Hc; specialize (Hle Hc)].
  all: unfold on_settled; repeat case_match; simpl; lia.
Qed.

End DrainReport.

Section DrainReportHandler.
Context {St W : Type}.
Import DrainWalletsHandler.

(** X13: the counters the drain handler reports do not depend on the order
    in which the calls of a batch settle: they are those of settling the
    calls one by one in registry order. Every wallet is counted once, as a
    success or as a failure, and the two special counters count failures
    only. The handler reads the registry and does not write it. *)
Theorem drain_report (factory : ChainProviderFactory W) (walletStore : WalletStore St)
    (settles : nat -> Wallet -> Result TransactionResult) (pick : list nat -> nat)
    (request : Request) (s : Sys St W) (provider : ChainProvider W)
    (st1 : St) (wallets : list Wallet) :
  factory (chain request) = Ok provider ->
  store_getWallets walletStore (chain request) (store s) = (st1, Ok wallets) ->
  exists s' report trace,
    handle factory walletStore settles pick request s = (s', Ok (report, trace)) /\
    store s' = st1 /\
    report = in_registry_order settles wallets /\
    (successCount report + failureCount report = length wallets)%nat /\
    (zeroBalanceCount report + insufficientBalanceCount report <= failureCount report)%nat.
Proof.
  intros Hfactory Hwallets.
  unfold handle, bind, lift_result, on_store, ret. rewrite Hfactory, Hwallets.
  pose proof (drain_loop_report settles pick wallets (length wallets) 0 no_report []
                ltac:(lia)) as Hrun.
  fold no_report.
  destruct (drain_loop settles pick (length wallets) wallets 0 no_report []) as [report trace].
  simpl in Hrun. eexists _, report, trace. split; [reflexivity|]. split; [reflexivity|].
  assert (Hreport : report = in_registry_order settles wallets).
  { rewrite Hrun. unfold in_registry_order.
    rewrite <- (foldr_fmap on_settled no_report _ (fun p : nat * Wallet => settles p.1 p.2)).
    rewrite fmap_imap. f_equal. }
  split; [exact Hreport|].
  destruct (tally_accounts (imap settles wallets) no_report) as [Hsum Hle].
  fold (in_registry_order settles wallets) in Hsum, Hle. rewrite <- Hreport in Hsum, Hle.
  rewrite length_imap in Hsum. simpl in Hsum, Hle. split; [exact Hsum | apply Hle; lia].
Qed.

End DrainReportHandler.

Section DrainReportExample.
Import DrainWalletsHandler.

Lemma drain_report_witness :
  let wallets := map numbered_wallet (seq 0 3) in
  let s := Script.boot (opened {[ "avalanche" := JsonStore.JArray wallets ]})
             (Script.start [] Script.no_fees) in
  let settles := fun (i : nat) (_ : Wallet) =>
                   match i with
                   | 0%nat => Ok {| hash := Some "0xhash"; successful := true; reason := None |}
                   | 1%nat => Ok (soft_failure "wallet balance is 0")
                   | _ => Throw (Error "could not reach the node")
                   end in
  let pick := fun inflight : list nat => (length inflight - 1)%nat in
  exists s' report trace,
    handle Script.factory JsonStore.as_store settles pick {| chain := "avalanche" |} s
      = (s', Ok (report, trace)) /\
    store s' = store s /\
    report = {| successCount := 1; failureCount := 2; zeroBalanceCount := 1;
                insufficientBalanceCount := 0 |}.
Proof.
  intros wallets s settles pick.
  destruct (drain_report Script.factory JsonStore.as_store settles pick
              {| chain := "avalanche" |} s (EVMChainProvider.as_provider script_evm)
              (store s) wallets eq_refl eq_refl)
    as (s' & report & trace & Hrun & Hstore & Hreport & _).
  exists s', report, trace. split; [exact Hrun|]. split; [exact Hstore|].
  rewrite Hreport. reflexivity.
Defined.

End DrainReportExample.

Section DrainReasons.
Context {W : Type}.
Import DrainWalletsHandler.

Lemma evm_drain_soft_reason (this : EVMChainProvider.t W) recipient wallet (e : Env W) result :
  (drainWallet (EVMChainProvider.as_provider this) recipient wallet e).2 = Ok result ->
  successful result = false ->
  journal (drainWallet (EVMChainProvider.as_provider this) recipient wallet e).1 = journal e ->
  reason result = Some zero_balance_reason \/ reason result = Some fee_reason.
Proof.
  simpl.
  unfold EVMChainProvider.drainWallet, rethrowing, try_catch, bind, lift_result, rpc, emit,
    ret, throw.
  repeat case_match; simplify_eq/=; intros [= <-] Hs Hj; simpl; try discriminate.
  all: try (left; reflexivity).
  all: try (right; reflexivity).
  all: exfalso; exact (journal_grew _ _ Hj).
Qed.

Lemma solana_drain_soft_reason (this : SolanaChainProvider.t W) recipient wallet (e : Env W)
    result :
  (drainWallet (SolanaChainProvider.as_provider this) recipient wallet e).2 = Ok result ->
  successful result = false ->
  journal (drainWallet (SolanaChainProvider.as_provider this) recipient wallet e).1
  = journal e ->
  reason result = Some zero_balance_reason \/ reason result = Some fee_reason.
Proof.
  simpl.
  unfold SolanaChainProvider.drainWallet, rethrowing, try_catch, bind, lift_result, rpc, emit,
    ret, throw.
  repeat case_match; simplify_eq/=; intros [= <-] Hs Hj; simpl; try discriminate.
  all: try (left; reflexivity).
  all: try (right; reflexivity).
  all: exfalso; exact (journal_grew _ _ Hj).
Qed.

Lemma on_settled_soft result c :
  successful result = false ->
  reason result = Some zero_balance_reason \/ reason result = Some fee_reason ->
  on_settled (Ok result) c
  = {| successCount := successCount c; failureCount := S (failureCount c);
       zeroBalanceCount :=
         if bool_decide (reason result = Some zero_balance_reason)
         then S (zeroBalanceCount c) else zeroBalanceCount c;
       insufficientBalanceCount :=
         if bool_decide (reason result = Some fee_reason)
         then S (insufficientBalanceCount c) else insufficientBalanceCount c |}.
Proof.
  intros Hs Hr. unfold on_settled, reason_includes. rewrite Hs.
  destruct Hr as [-> | ->]; reflexivity.
Qed.

(** X14: the two providers and the drain handler agree on the reasons. When
    [drainWallet] of either provider returns an unsuccessful result without
    having handed a transfer to the network, the handler's callback counts
    it as a failure and in exactly one of its two special counters: under
    zero balance for the reason "wallet balance is 0", under insufficient
    balance for the reason about the transfer fee. *)
Theorem drain_soft_failures_counted (provider : ChainProvider W)
    (recipient : option string) (wallet : Wallet) (e : Env W) (result : TransactionResult)
    (c : Report) :
  (exists this, provider = EVMChainProvider.as_provider this) \/
  (exists this, provider = SolanaChainProvider.as_provider this) ->
  (drainWallet provider recipient wallet e).2 = Ok result ->
  successful result = false ->
  journal (drainWallet provider recipient wallet e).1 = journal e ->
  on_settled (Ok result) c
  = {| successCount := successCount c; failureCount := S (failureCount c);
       zeroBalanceCount :=
         if bool_decide (reason result = Some "wallet balance is 0")
         then S (zeroBalanceCount c) else zeroBalanceCount c;
       insufficientBalanceCount :=
         if bool_decide (reason result
                         = Some "wallet has insufficient balance to cover the transfer fee")
         then S (insufficientBalanceCount c) else insufficientBalanceCount c |} /\
  (reason result = Some "wallet balance is 0" \/
   reason result = Some "wallet has insufficient balance to cover the transfer fee").
Proof.
  intros Hfamily Hrun Hs Hj.
  assert (Hr : reason result = Some zero_balance_reason \/ reason result = Some fee_reason).
  { destruct Hfamily as [[this ->] | [this ->]].
    - exact (evm_drain_soft_reason this recipient wallet e result Hrun Hs Hj).
    - exact (solana_drain_soft_reason this recipient wallet e result Hrun Hs Hj). }
  split; [exact (on_settled_soft result c Hs Hr) | exact Hr].
Qed.

End DrainReasons.

Lemma drain_soft_failures_counted_witness :
  let e := Script.start [("addr-k1", 100)] Script.no_fees in
  let dust := Script.wallet_ "k1" "addr-k1" "wallet-1" in
  DrainWalletsHandler.on_settled (Ok (soft_failure fee_reason)) no_report
  = {| DrainWalletsHandler.successCount := 0; DrainWalletsHandler.failureCount := 1;
       DrainWalletsHandler.zeroBalanceCount := 0;
       DrainWalletsHandler.insufficientBalanceCount := 1 |}.
Proof.
  intros e dust.
  apply (proj1 (drain_soft_failures_counted
                  (SolanaChainProvider.as_provider script_solana)
                  (Some "addr-sol-funder-key") dust e (soft_failure fee_reason) no_report
                  (or_intror (ex_intro _ script_solana eq_refl))
                  eq_refl eq_refl eq_refl)).
Defined.

Section FundRuns.
Context {St W : Type}.
Import FundWalletsHandler.



Lemma fund_loop_app (provider : ChainProvider W) (request : Request) (funder : Wallet)
    (rest : list Wallet) : forall (pre : list Wallet) (acc : Report) (s : Sys St W),
  fund_loop provider request funder (pre ++ rest) acc s
  = match fund_loop provider request funder pre acc s with
    | (s1, Ok acc1) => fund_loop provider request funder rest acc1 s1
    | (s1, Throw err) => (s1, Throw err)
    end.
Proof.
  induction pre as [|wallet pre IH]; intros acc s; [reflexivity|].
  simpl. unfold bind.
  destruct (call_getBalance provider (publicKey wallet) s) as [s1 [balance|err]];
    [|reflexivity].
  destruct (lift_result (in_chain_units (chain request) (minBalance request)) s1)
    as [s2 [threshold|err]]; [|reflexivity].
  destruct (threshold <=? balance); [apply IH|].
  match goal with |- context [try_catch ?m ?h s2] =>
    destruct (try_catch m h s2) as [s3 [acc3|err]]; [apply IH | reflexivity] end.
Qed.

(** X16: a balance query that throws in the funding loop is not caught: the
    handler's loop stops there with that error, after the wallets before it
    have been dealt with, and no wallet behind it is looked at. *)
Theorem fund_stops_at_failed_query (provider : ChainProvider W) (request : Request)
    (funder : Wallet) (pre post : list Wallet) (wallet : Wallet) (acc acc1 : Report)
    (s s1 : Sys St W) (e2 : Env W) (err : JsError) :
  fund_loop provider request funder pre acc s = (s1, Ok acc1) ->
  getBalance provider (publicKey wallet) (env s1) = (e2, Throw err) ->
  fund_loop provider request funder (pre ++ wallet :: post) acc s
  = ({| store := store s1; env := e2;
        calls := calls s1 ++ [Called_getBalance (publicKey wallet) (Throw err)] |},
     Throw err).
Proof.
  intros Hpre Hbal. rewrite fund_loop_app, Hpre. simpl. unfold bind at 1.
  destruct (call_getBalance_spec provider (publicKey wallet) s1) as (e' & r & Hget & Hcall).
  rewrite Hcall. rewrite Hbal in Hget. injection Hget as <- <-. reflexivity.
Qed.

(** X17: an amount that does not convert to a whole number of units (NaN, an
    infinity) makes the fund handler throw the RangeError of the conversion
    once provider and registry list are there, before any call to the
    provider: no balance is queried and no transfer asked for. *)
Theorem fund_amount_not_a_number (factory : ChainProviderFactory W)
    (walletStore : WalletStore St) (request : Request) (s : Sys St W)
    (provider : ChainProvider W) (st1 : St) (wallets : list Wallet) (err : JsError) :
  factory (chain request) = Ok provider ->
  store_getWallets walletStore (chain request) (store s) = (st1, Ok wallets) ->
  in_chain_units (chain request) (amount request) = Throw err ->
  handle factory walletStore request s
  = ({| store := st1; env := env s; calls := calls s |}, Throw err).
Proof.
  intros Hfactory Hwallets Hunits.
  unfold handle, bind, lift_result, on_store. rewrite Hfactory, Hwallets, Hunits.
  reflexivity.
Qed.

End FundRuns.

Section FundRunExamples.
Import FundWalletsHandler.



Lemma fund_stops_at_failed_query_witness :
  let known := Script.wallet_ "k0" "a0" "wallet-0" in
  let unknown := Script.wallet_ "k1" "a1" "wallet-1" in
  let s := Script.boot (opened ∅) (Script.start [("a0", 7)] Script.no_fees) in
  let request := {| chain := "avalanche"; amount := 1; minBalance := 1 |} in
  let acc := {| fundedCount := 0; skippedCount := 0 |} in
  (fund_loop (EVMChainProvider.as_provider script_evm) request
     (EVMChainProvider.funder script_evm) ([] ++ unknown :: [known]) acc s).2
  = Throw (Error "could not reach the node").
Proof.
  intros known unknown s request acc.
  rewrite (fund_stops_at_failed_query (EVMChainProvider.as_provider script_evm) request
             (EVMChainProvider.funder script_evm) [] [known] unknown acc acc s s (env s)
             (Error "could not reach the node") eq_refl eq_refl).
  reflexivity.
Defined.

Lemma fund_amount_not_a_number_witness :
  let s := Script.boot (opened ∅) (Script.start [] Script.no_fees) in
  let request := {| chain := "avalanche"; amount := nan; minBalance := nan |} in
  handle Script.factory JsonStore.as_store request s
  = (s, Throw (RangeError
                 "The number cannot be converted to a BigInt because it is not an integer")).
Proof.
  intros s request.
  apply (fund_amount_not_a_number Script.factory JsonStore.as_store request s
           (EVMChainProvider.as_provider script_evm) (store s) []); reflexivity.
Defined.

End FundRunExamples.

Section WithoutProvider.
Context {St W : Type}.

(** X18: when the factory has no provider for the chain, the balances, fund
    and drain handlers throw the factory's error at once: the registry is
    not read and nothing is asked of the network. The create handler counts
    the registry's wallets first, so the store is accessed before the same
    error (or the one of that access) comes up; no wallet is generated and
    none is added. *)
Theorem handlers_need_a_provider (factory : ChainProviderFactory W)
    (walletStore : WalletStore St) (settles : nat -> Wallet -> Result TransactionResult)
    (pick : list nat -> nat) (chain_ : string) (s : Sys St W) (err : JsError) :
  factory chain_ = Throw err ->
  GetBalancesHandler.handle factory walletStore {| GetBalancesHandler.chain := chain_ |} s
  = (s, Throw err) /\
  (forall amount_ minBalance_,
     FundWalletsHandler.handle factory walletStore
       {| FundWalletsHandler.chain := chain_; FundWalletsHandler.amount := amount_;
          FundWalletsHandler.minBalance := minBalance_ |} s
     = (s, Throw err)) /\
  DrainWalletsHandler.handle factory walletStore settles pick
    {| DrainWalletsHandler.chain := chain_ |} s
  = (s, Throw err) /\
  (forall count_,
     CreateWalletsHandler.handle factory walletStore
       {| CreateWalletsHandler.chain := chain_; CreateWalletsHandler.count := count_ |} s
     = ({| store := (store_count walletStore chain_ (store s)).1; env := env s;
           calls := calls s |},
        match (store_count walletStore chain_ (store s)).2 with
        | Ok _ => Throw err
        | Throw err' => Throw err'
        end)).
Proof.
  intros Hfactory. destruct s as [st e cs].
  split; [|split; [|split]].
  - unfold GetBalancesHandler.handle, bind, lift_result. simpl. rewrite Hfactory. reflexivity.
  - intros amount_ minBalance_.
    unfold FundWalletsHandler.handle, bind, lift_result. simpl. rewrite Hfactory. reflexivity.
  - unfold DrainWalletsHandler.handle, bind, lift_result. simpl. rewrite Hfactory. reflexivity.
  - intros count_.
    unfold CreateWalletsHandler.handle, bind, lift_result, on_store. simpl.
    destruct (store_count walletStore chain_ st) as [st1 [n|err']]; simpl; [|reflexivity].
    rewrite Hfactory. reflexivity.
Qed.

End WithoutProvider.

Lemma handlers_need_a_provider_witness :
  let s := Script.boot {| JsonStore.initialized := false; JsonStore.file := JsonStore.Missing |}
             (Script.start [] Script.no_fees) in
  GetBalancesHandler.handle Script.factory JsonStore.as_store
    {| GetBalancesHandler.chain := "ethereum" |} s
  = (s, Throw (Error "no entry found in config for chain: ethereum")) /\
  CreateWalletsHandler.handle Script.factory JsonStore.as_store
    {| CreateWalletsHandler.chain := "ethereum"; CreateWalletsHandler.count := 2 |} s
  = (Script.boot (opened ∅) (Script.start [] Script.no_fees),
     Throw (Error "no entry found in config for chain: ethereum")).
Proof.
  intros s.
  destruct (handlers_need_a_provider Script.factory JsonStore.as_store
              (fun _ _ => Throw SyntaxError) (fun _ => 0%nat) "ethereum" s
              (Error "no entry found in config for chain: ethereum") eq_refl)
    as (Hbalances & _ & _ & Hcreate).
  split; [exact Hbalances | exact (Hcreate 2)].
Defined.

Section CreateFailure.
Context {W : Type}.
Import CreateWalletsHandler.






End CreateFailure.


(** ** The factory and the configuration *)

Section FactoryFacts.
Context {W : Type}.
Variable evm_at : string -> EvmRpc W.
Variable solana_at : string -> SolanaRpc W.




End FactoryFacts.



(** ** The commands of main.ts *)

Section CommandFacts.
Context {W : Type}.
Variable parseInt : string -> option Z.
Variable parseFloat : string -> float.
Variable providerFactory : ChainProviderFactory W.
Variable settles : nat -> Wallet -> Result TransactionResult.
Variable pick : list nat -> nat.

Lemma awaiting_never_exits {A} (m : M (Sys JsonStore.t W) A) p code :
  (Commands.awaiting m p).2 <> Commands.Exited code.
Proof.
  unfold Commands.awaiting. destruct (m _) as [s' [a|err]]; discriminate.
Qed.

(** X22: the commands check their arguments before they touch anything. With
    a wrong number of arguments each of the four exits with code 1; so does
    create for a count that is not a number or not positive, and fund for an
    amount that is zero or negative. The data file, the network and the
    calls are then as they were. Conversely, when create does not exit, its
    handler ran on a count of at least one. *)
Theorem commands_check_arguments (args : list string) (p : Commands.Process) :
  (length args <> 2%nat ->
     Commands.create parseInt providerFactory args p = (p, Commands.Exited 1) /\
     Commands.fund parseFloat providerFactory args p = (p, Commands.Exited 1)) /\
  (length args <> 1%nat ->
     Commands.balances providerFactory args p = (p, Commands.Exited 1) /\
     Commands.drain providerFactory settles pick args p = (p, Commands.Exited 1)) /\
  (forall chain_ text_,
     args = [chain_; text_] ->
     (parseInt text_ = None \/ exists n, parseInt text_ = Some n /\ n <= 0) ->
     Commands.create parseInt providerFactory args p = (p, Commands.Exited 1)) /\
  (forall chain_ text_,
     args = [chain_; text_] ->
     (parseFloat text_ <=? 0)%float = true ->
     Commands.fund parseFloat providerFactory args p = (p, Commands.Exited 1)) /\
  ((Commands.create parseInt providerFactory args p).2 <> Commands.Exited 1 ->
   exists chain_ text_ count_,
     args = [chain_; text_] /\ parseInt text_ = Some count_ /\ 1 <= count_ /\
     Commands.create parseInt providerFactory args p
     = Commands.awaiting
         (CreateWalletsHandler.handle providerFactory JsonStore.as_store
            {| CreateWalletsHandler.chain := chain_;
               CreateWalletsHandler.count := count_ |}) p).
Proof.
  split; [|split; [|split; [|split]]].
  - intros Hlen. destruct args as [|a [|b [|c rest]]]; simpl in Hlen; try lia; split; reflexivity.
  - intros Hlen. destruct args as [|a [|b rest]]; simpl in Hlen; try lia; split; reflexivity.
  - intros chain_ text_ -> Hcount. unfold Commands.create.
    destruct Hcount as [-> | (n & -> & Hn)]; [reflexivity|].
    destruct (Z.leb_spec n 0); [reflexivity | lia].
  - intros chain_ text_ -> Hamount. unfold Commands.fund. rewrite Hamount. reflexivity.
  - intros Hrun. destruct args as [|a [|b [|c rest]]];
      try (exfalso; apply Hrun; reflexivity).
    unfold Commands.create in *.
    destruct (parseInt b) as [n|] eqn:Hn; [|exfalso; apply Hrun; reflexivity].
    destruct (Z.leb_spec n 0); [exfalso; apply Hrun; reflexivity|].
    exists a, b, n. split; [reflexivity|]. split; [exact Hn|].
    split; [lia | reflexivity].
Qed.

Lemma in_chain_units_nan chain_ :
  FundWalletsHandler.in_chain_units chain_ nan
  = Throw (RangeError
             "The number cannot be converted to a BigInt because it is not an integer").
Proof.
  unfold FundWalletsHandler.in_chain_units. destruct (bool_decide _); reflexivity.
Qed.

(** X23: an amount that [parseFloat] reads as NaN gets past the check of the
    fund command, which only turns away amounts [<= 0]. The command then
    does not resolve: its promise rejects (at the latest with the RangeError
    of the conversion), and the provider is asked nothing. *)
Theorem fund_command_not_a_number (chain_ text_ : string) (p : Commands.Process) :
  parseFloat text_ = nan ->
  exists disk' err,
    Commands.fund parseFloat providerFactory [chain_; text_] p
    = ({| store := disk'; env := env p; calls := calls p |}, Commands.Rejected err).
Proof.
  intros Hnan. unfold Commands.fund. rewrite Hnan.
  change (nan <=? 0)%float with false. cbv iota.
  unfold Commands.awaiting, FundWalletsHandler.handle, bind, lift_result, on_store. simpl.
  destruct (providerFactory chain_) as [provider|err]; [|eexists _, _; reflexivity].
  destruct (JsonStore.getWallets chain_ _) as [st1 [wallets|err]];
    [|eexists _, _; reflexivity].
  rewrite in_chain_units_nan. eexists _, _. reflexivity.
Qed.

End CommandFacts.

Lemma commands_check_arguments_witness :
  let p := {| store := JsonStore.Missing; env := Script.start [] Script.no_fees;
              calls := [] |} in
  let parseInt := fun text_ : string => if bool_decide (text_ = "2") then Some 2 else None in
  Commands.create parseInt Script.factory ["avalanche"; "two"] p = (p, Commands.Exited 1) /\
  Commands.create parseInt Script.factory ["avalanche"] p = (p, Commands.Exited 1) /\
  exists count_,
    1 <= count_ /\
    Commands.create parseInt Script.factory ["avalanche"; "2"] p
    = Commands.awaiting
        (CreateWalletsHandler.handle Script.factory JsonStore.as_store
           {| CreateWalletsHandler.chain := "avalanche";
              CreateWalletsHandler.count := count_ |}) p.
Proof.
  intros p parseInt.
  split; [|split].
  - destruct (commands_check_arguments parseInt (fun _ => nan) Script.factory
                (fun _ _ => Throw SyntaxError) (fun _ => 0%nat) ["avalanche"; "two"] p)
      as (_ & _ & Hcount & _).
    apply (Hcount "avalanche" "two" eq_refl). left. reflexivity.
  - destruct (commands_check_arguments parseInt (fun _ => nan) Script.factory
                (fun _ _ => Throw SyntaxError) (fun _ => 0%nat) ["avalanche"] p)
      as (Harity & _).
    apply Harity. simpl. lia.
  - destruct (commands_check_arguments parseInt (fun _ => nan) Script.factory
                (fun _ _ => Throw SyntaxError) (fun _ => 0%nat) ["avalanche"; "2"] p)
      as (_ & _ & _ & _ & Hran).
    destruct Hran as (chain_ & text_ & count_ & Hargs & _ & Hpos & Hrun); [discriminate|].
    injection Hargs as <- <-. exists count_. split; [exact Hpos | exact Hrun].
Defined.

Lemma fund_command_not_a_number_witness :
  let p := {| store := JsonStore.Missing; env := Script.start [] Script.no_fees;
              calls := [] |} in
  exists disk' err,
    Commands.fund (fun _ => nan) Script.factory ["avalanche"; "lots"] p
    = ({| store := disk'; env := env p; calls := [] |}, Commands.Rejected err).
Proof.
  intros p.
  exact (fund_command_not_a_number (fun _ => nan) Script.factory "avalanche" "lots" p eq_refl).
Defined.

(** ** The logger *)

Section LoggerFacts.
Context {D : Type}.

(** X24: the logger writes by level. A call at a level puts exactly one line
    on the console when the level is at most as verbose as the logger's own,
    and nothing otherwise; errors come out at every setting, so that
    [error] needs no check. The line goes to [console.error] for an error,
    to [console.warn] for a warning and to [console.log] otherwise, and ends
    with the message. The logger of the program, which is set to INFO,
    writes everything except the debug lines. *)
Theorem logger_writes_by_level (this : Logger.t) (now : string) (level_ : Logger.LogLevel)
    (message : string) (context : option string) (data : option D)
    (out : list (Logger.Line D)) :
  (Logger.shouldLog this level_ = true <-> (verbosity level_ <= verbosity (Logger.level this))%nat) /\
  Logger.shouldLog this Logger.ERROR = true /\
  said this now level_ message context data out
  = (if Logger.shouldLog this level_
     then Logger.log this now level_ message context data out
     else out) /\
  (exists prefix,
     Logger.log this now level_ message context data out
     = out ++ [{| Logger.method := match level_ with
                                   | Logger.ERROR => Logger.console_error
                                   | Logger.WARN => Logger.console_warn
                                   | _ => Logger.console_log
                                   end;
                  Logger.text := prefix +:+ message;
                  Logger.datum := data |}]) /\
  (Logger.shouldLog Logger.getInstance level_ = true <-> level_ <> Logger.DEBUG).
Proof.
  split; [|split; [|split; [|split]]].
  - destruct this as [[] ts], level_; vm_compute; split; intros H; try discriminate;
      try reflexivity; try lia; exfalso; apply H; repeat constructor.
  - destruct this as [[] ts]; reflexivity.
  - destruct level_; try reflexivity.
    destruct this as [[] ts]; reflexivity.
  - eexists. reflexivity.
  - destruct level_; vm_compute; split; intros H; try discriminate; try reflexivity.
    exfalso. apply H. reflexivity.
Qed.

End LoggerFacts.

(** ** Further instances *)


Lemma evm_drain_transfers_witness :
  let gas := {| gasPrice := Some 2; maxFeePerGas := None; maxPriorityFeePerGas := None |} in
  let e := Script.start [("addr-k1", 50000)] gas in
  let wallet := Script.wallet_ "k1" "addr-k1" "wallet-1" in
  journal (drainWallet (EVMChainProvider.as_provider script_evm) (Some "addr-evm-funder-key")
             wallet e).1
  <> journal e.
Proof.
  intros gas e wallet.
  destruct (evm_drain_transfers script_evm (Some "addr-evm-funder-key") wallet e)
    as (_ & Hsuccess & _).
  exact (proj1 (Hsuccess {| hash := Some "0xhash"; successful := true; reason := None |}
                  eq_refl eq_refl)).
Defined.

Lemma solana_drain_transfers_witness :
  let e := Script.start [("addr-k1", 50000)] Script.no_fees in
  let wallet := Script.wallet_ "k1" "addr-k1" "wallet-1" in
  journal (drainWallet (SolanaChainProvider.as_provider script_solana)
             (Some "addr-sol-funder-key") wallet e).1
  <> journal e.
Proof.
  intros e wallet.
  destruct (solana_drain_transfers script_solana (Some "addr-sol-funder-key") wallet e)
    as (_ & Hsuccess & _).
  exact (proj1 (Hsuccess {| hash := Some "signature"; successful := true; reason := None |}
                  eq_refl eq_refl)).
Defined.

